(** * st-react-flow-pro: the layout adapter and view controller of [App.tsx]

    A shallow embedding of [frontend/src/App.tsx] together with the default
    graph of [nodes/index.ts] and [edges/index.ts].

    JavaScript numbers are IEEE-754 binary64 values, embedded as Rocq's
    primitive floats.  Objects used as maps (CSS style objects, the extra
    properties of a node) are finite maps with string keys. *)

From Stdlib Require Import Floats.PrimFloat.
From stdpp Require Import base option list strings gmap fin_maps.

#[local] Set Warnings "-register-all".

Local Open Scope string_scope.

(** ** JavaScript values *)

(** Values carried by style maps and by the opaque parts of a node.
    [JUndefined] is a value of its own: a key bound to [undefined] is not the
    same as an absent key. *)
Inductive jsval : Type :=
  | JUndefined
  | JNull
  | JBool (b : bool)
  | JNum (f : float)
  | JStr (s : string)
  | JArr (l : list jsval)
  | JObj (o : gmap string jsval).

(** [v === s] for a string [s]: only an equal string is strictly equal. *)
Definition strict_eq_str (v : jsval) (s : string) : bool :=
  match v with
  | JStr t => bool_decide (t = s)
  | _ => false
  end.

(** Exceptions a call can end with. *)
Inductive exn : Type :=
  | TypeError      (* a property read on [undefined] *)
  | EngineError.   (* thrown from inside the layout library *)

Inductive result (A : Type) : Type :=
  | Ok (a : A)
  | Throw (e : exn).
Arguments Ok {A} a.
Arguments Throw {A} e.

(** [Array.prototype.map] with a callback that may throw: the first
    exception aborts the traversal. *)
Fixpoint map_result {A B : Type} (f : A → result B) (l : list A) : result (list B) :=
  match l with
  | [] => Ok []
  | a :: l' =>
      match f a with
      | Throw e => Throw e
      | Ok b =>
          match map_result f l' with
          | Throw e => Throw e
          | Ok bs => Ok (b :: bs)
          end
      end
  end.

(** [ToNumber] on a property that may be missing: [undefined] becomes NaN. *)
Definition toNumber (v : option float) : float := default nan v.

(** ** The graph data model *)

Module XYPosition.
Record t : Type := mk { x : float; y : float }.
End XYPosition.

Module MeasuredDimensions.
Record t : Type := mk { width : option float; height : option float }.
End MeasuredDimensions.

Module MeasuredNode.
(** [MeasuredNode extends Node]: the properties [App.tsx] reads or writes,
    the opaque payload [data], and [rest] for every other own property
    ([selected], [draggable], ...), which object spread copies along. *)
Record t : Type := mk {
  id : string;
  type : option string;
  position : XYPosition.t;
  data : jsval;
  measured : option MeasuredDimensions.t;
  style : option (gmap string jsval);
  rest : gmap string jsval
}.

(** [{ ...node, position }] *)
Definition with_position (node : t) (p : XYPosition.t) : t :=
  mk (id node) (type node) p (data node) (measured node) (style node) (rest node).

(** [{ ...node, style }] *)
Definition with_style (node : t) (s : gmap string jsval) : t :=
  mk (id node) (type node) (position node) (data node) (measured node) (Some s) (rest node).
End MeasuredNode.

Module Edge.
Record t : Type := mk {
  id : string;
  source : string;
  target : string;
  type : option string;
  animated : option bool;
  rest : gmap string jsval
}.
End Edge.

Record LayoutOptions : Type := { direction : string }.

(** The built-in graph of [nodes/index.ts] and [edges/index.ts]. *)
Definition initialNodes : list MeasuredNode.t :=
  [ MeasuredNode.mk "a" (Some "input") (XYPosition.mk 0 0)
      (JObj {[ "label" := JStr "Start" ]}) None None ∅ ].

Definition initialEdges : list Edge.t :=
  [ Edge.mk "a->c" "a" "c" None (Some true) ∅ ].

(** ** The layout library's graph container *)

Module Dagre.

(** A node label: the object handed to [setNode], on which the layout
    writes the centre [x], [y]. *)
Record Label : Type := mkLabel {
  width : float;
  height : float;
  x : option float;
  y : option float
}.

(** [graphlib.Graph], directed, not a multigraph: the label stored under
    each node id and the edge pairs.  A node created on behalf of an edge
    carries the default node label, [undefined].  The list holds the nodes
    in the order they were created; this is the store only, not the order
    in which graphlib enumerates them (the key order of a plain object),
    and nothing below depends on it. *)
Record Graph : Type := mkGraph {
  rankdir : option string;
  nodes : list (string * option Label);
  edges : list (string * string)
}.

Definition empty : Graph := mkGraph None [] [].

Definition setGraph (dir : string) (g : Graph) : Graph :=
  mkGraph (Some dir) (nodes g) (edges g).

Fixpoint lookup_node (v : string) (ns : list (string * option Label))
  : option (option Label) :=
  match ns with
  | [] => None
  | (k, l) :: ns' => if decide (k = v) then Some l else lookup_node v ns'
  end.

Fixpoint store_node (v : string) (l : option Label)
    (ns : list (string * option Label)) : list (string * option Label) :=
  match ns with
  | [] => [(v, l)]
  | (k, l0) :: ns' =>
      if decide (k = v) then (k, l) :: ns' else (k, l0) :: store_node v l ns'
  end.

(** Whether the store has an entry under [v]. *)
Definition hasNode (g : Graph) (v : string) : bool :=
  match lookup_node v (nodes g) with Some _ => true | None => false end.

(** [g.node(v)]: [undefined] for an unknown node and for a node whose label
    is [undefined]. *)
Definition node (g : Graph) (v : string) : option Label :=
  mjoin (lookup_node v (nodes g)).

(** [g.setNode(v, label)]: creates the node or overwrites its label. *)
Definition setNode (v : string) (l : Label) (g : Graph) : Graph :=
  mkGraph (rankdir g) (store_node v (Some l) (nodes g)) (edges g).

(** [g.setNode(v)]: creates the node with the default label when it is
    new, and leaves an existing node alone.  Nodes are the own keys of a
    plain object: for the id ["__proto__"] the store of [undefined] creates
    no key, so no node appears. *)
Definition ensureNode (v : string) (g : Graph) : Graph :=
  if hasNode g v || bool_decide (v = "__proto__") then g
  else mkGraph (rankdir g) (nodes g ++ [(v, None)]) (edges g).

Definition hasEdge (g : Graph) (v w : string) : bool :=
  bool_decide ((v, w) ∈ edges g).

(** [g.setEdge(v, w)]: an existing edge is kept; otherwise both endpoints
    are created if need be and the edge is added. *)
Definition setEdge (v w : string) (g : Graph) : Graph :=
  if hasEdge g v w then g
  else
    let g := ensureNode w (ensureNode v g) in
    mkGraph (rankdir g) (nodes g) (edges g ++ [(v, w)]).

(** Every node of [g] that has a label still has one in [g']. *)
Definition keepsLabels (g g' : Graph) : bool :=
  forallb (λ '(v, _), match node g v with
                      | Some _ => bool_decide (is_Some (node g' v))
                      | None => true
                      end) (nodes g).

End Dagre.

(** ** The layout adapter: [getLayoutedElements] *)

(** [node.measured?.width ?? 100] and [node.measured?.height ?? 50] *)
Definition nodeWidth (node : MeasuredNode.t) : float :=
  default 100%float (MeasuredNode.measured node ≫= MeasuredDimensions.width).

Definition nodeHeight (node : MeasuredNode.t) : float :=
  default 50%float (MeasuredNode.measured node ≫= MeasuredDimensions.height).

Module Layouted.
(** The pair [{ nodes, edges }] returned by the adapter. *)
Record t : Type := mk {
  nodes : list MeasuredNode.t;
  edges : list Edge.t
}.
End Layouted.

(** Lines 55-65: the graph handed to the layout. *)
Definition buildGraph (nodes : list MeasuredNode.t) (edges : list Edge.t)
    (options : LayoutOptions) : Dagre.Graph :=
  let g := Dagre.setGraph (direction options) Dagre.empty in
  let g :=
    fold_left (λ g node,
      Dagre.setNode (MeasuredNode.id node)
        (Dagre.mkLabel (nodeWidth node) (nodeHeight node) None None) g)
      nodes g in
  fold_left (λ g edge, Dagre.setEdge (Edge.source edge) (Edge.target edge) g)
    edges g.

(** Lines 69-76: the callback of [nodes.map]. *)
Definition placeNode (g : Dagre.Graph) (node : MeasuredNode.t)
  : result MeasuredNode.t :=
  match Dagre.node g (MeasuredNode.id node) with
  | None => Throw TypeError
  | Some position =>
      let width := nodeWidth node in
      let height := nodeHeight node in
      let x := (toNumber (Dagre.x position) - width / 2)%float in
      let y := (toNumber (Dagre.y position) - height / 2)%float in
      Ok (MeasuredNode.with_position node (XYPosition.mk x y))
  end.

Section Layout.

(** [Dagre.layout], the third-party layout algorithm: it either throws or
    leaves the graph with centres written on its labels. *)
Variable layout : Dagre.Graph → option Dagre.Graph.

Definition getLayoutedElements (nodes : list MeasuredNode.t)
    (edges : list Edge.t) (options : LayoutOptions) : result Layouted.t :=
  let g := buildGraph nodes edges options in
  match layout g with
  | None => Throw EngineError
  | Some g =>
      match map_result (placeNode g) nodes with
      | Throw e => Throw e
      | Ok layoutedNodes => Ok (Layouted.mk layoutedNodes edges)
      end
  end.

End Layout.

(** A small layout used to run the adapter: labelled nodes are stacked top
    to bottom in the order of the store, 50 apart, left edges aligned at 0. *)
Fixpoint stackNodes (top : float) (ns : list (string * option Dagre.Label))
  : list (string * option Dagre.Label) :=
  match ns with
  | [] => []
  | (v, None) :: ns' => (v, None) :: stackNodes top ns'
  | (v, Some l) :: ns' =>
      let w := Dagre.width l in
      let h := Dagre.height l in
      (v, Some (Dagre.mkLabel w h (Some (w / 2)%float) (Some (top + h / 2)%float)))
        :: stackNodes (top + h + 50)%float ns'
  end.

Definition stackLayout (g : Dagre.Graph) : option Dagre.Graph :=
  Some (Dagre.mkGraph (Dagre.rankdir g) (stackNodes 0 (Dagre.nodes g)) (Dagre.edges g)).



(** ** Theme resolution: [useFlowChartStyles] *)

(** [a || d] on an optional string: [undefined] and the empty string are
    falsy, every other string is truthy. *)
Definition or_default (a : option string) (d : string) : string :=
  match a with
  | Some EmptyString => d
  | Some s => s
  | None => d
  end.

Module Theme.
(** [FlowChartArgs['theme']]; every field is optional. *)
Record t : Type := mk {
  base : option string;
  secondaryBackgroundColor : option string;
  textColor : option string;
  primaryColor : option string
}.
End Theme.

Module Styles.
(** The object returned by [useFlowChartStyles]. *)
Record t : Type := mk {
  backgroundColor : string;
  textColor : string;
  primaryColor : string
}.
End Styles.

(** [theme?.base === "dark"] *)
Definition isDark (theme : option Theme.t) : bool :=
  match theme ≫= Theme.base with
  | Some b => bool_decide (b = "dark")
  | None => false
  end.

Definition useFlowChartStyles (theme : option Theme.t) : Styles.t :=
  let isDark := isDark theme in
  {| Styles.backgroundColor :=
       or_default (theme ≫= Theme.secondaryBackgroundColor)
                  (if isDark then "#333" else "#fff");
     Styles.textColor :=
       or_default (theme ≫= Theme.textColor)
                  (if isDark then "#fff" else "#000");
     Styles.primaryColor :=
       or_default (theme ≫= Theme.primaryColor) "#007bff" |}.

(** The themed border string, [`2px solid ${styles.primaryColor}`]. *)
Definition highlightBorder (primaryColor : string) : string :=
  "2px solid " +:+ primaryColor.

(** The reading of the sentence "the default primary color is likewise
    derived from base": as for the two other fields, a dark value and a
    different light value, selected by [theme.base]. *)
Definition primary_default_follows_base : Prop :=
  ∃ dark light : string,
    dark ≠ light ∧
    ∀ th : Theme.t,
      Theme.primaryColor th = None →
      Styles.primaryColor (useFlowChartStyles (Some th))
      = if isDark (Some th) then dark else light.

Definition darkTheme : Theme.t := Theme.mk (Some "dark") None None None.
Definition lightTheme : Theme.t := Theme.mk (Some "light") None None None.

(** [{ direction: 'TB' }], the options [FlowChart] lays out with. *)
Definition tbOptions : LayoutOptions := {| direction := "TB" |}.

(** A host-supplied graph used to run the definitions: a measured node, an
    unmeasured one that already carries the default highlight border, and an
    edge between them. *)
Definition sampleNodes : list MeasuredNode.t :=
  [ MeasuredNode.mk "n1" None (XYPosition.mk 7 9) (JObj {[ "label" := JStr "One" ]})
      (Some (MeasuredDimensions.mk (Some 120%float) (Some 40%float))) None ∅;
    MeasuredNode.mk "n2" (Some "output") (XYPosition.mk 0 0) JNull None
      (Some {[ "border" := JStr "2px solid #007bff"; "color" := JStr "red" ]})
      {[ "selected" := JBool true ]} ].

Definition sampleEdges : list Edge.t :=
  [ Edge.mk "n1->n2" "n1" "n2" (Some "animatedSvg") None ∅ ].

(** ** Highlighting: [addBorderToNode] and the border effect *)

(** The updater passed to [setNodes] by [addBorderToNode(nodeId)]:
    [{ ...node, style: { ...(node.style || {}), border: ... } }]. *)
Definition addBorderToNode (primaryColor nodeId : string)
    (prevNodes : list MeasuredNode.t) : list MeasuredNode.t :=
  (λ node,
    MeasuredNode.with_style node
      (<["border" :=
           if decide (MeasuredNode.id node = nodeId)
           then JStr (highlightBorder primaryColor)
           else JUndefined]>
         (default ∅ (MeasuredNode.style node))))
  <$> prevNodes.

(** [node.style?.border === `2px solid ${styles.primaryColor}`] *)
Definition hasHighlightBorder (primaryColor : string) (node : MeasuredNode.t) : bool :=
  match MeasuredNode.style node ≫= (.!! "border") with
  | Some v => strict_eq_str v (highlightBorder primaryColor)
  | None => false
  end.

(** Lines 191-202, as a function of the node state: nothing without a
    (non-empty) [borderNodeId], nothing when the target already carries the
    themed border, [addBorderToNode] otherwise.  The effect inspects the
    rendered [nodes] and updates [prevNodes]; with no other update queued
    between render and effect the two are the same list. *)
Definition borderEffect (borderNodeId : option string) (primaryColor : string)
    (nodes : list MeasuredNode.t) : list MeasuredNode.t :=
  match borderNodeId with
  | None | Some EmptyString => nodes
  | Some nodeId =>
      let nodeWithBorder :=
        find (λ node, bool_decide (MeasuredNode.id node = nodeId)
                      && hasHighlightBorder primaryColor node) nodes in
      match nodeWithBorder with
      | Some _ => nodes
      | None => addBorderToNode primaryColor nodeId nodes
      end
  end.

(** Whether the border effect of lines 191-202 reaches its call of
    [addBorderToNode]. *)
Definition borderEffectFires (borderNodeId : option string) (primaryColor : string)
    (nodes : list MeasuredNode.t) : bool :=
  match borderNodeId with
  | None | Some EmptyString => false
  | Some nodeId =>
      match find (λ node, bool_decide (MeasuredNode.id node = nodeId)
                          && hasHighlightBorder primaryColor node) nodes with
      | Some _ => false
      | None => true
      end
  end.

(** ** The view controller: memos, state and effects of [FlowChart] *)

(** Identity of an array object: dependency lists and state updates
    compare by reference. *)
Inductive ref : Type :=
  | RefBuiltin           (* the arrays exported by [./nodes] and [./edges] *)
  | RefHost (n : nat)    (* an array deserialized from a host message *)
  | RefFresh (n : nat).  (* an array built by [map] while the component runs *)

#[global] Instance ref_eq_dec : EqDecision ref.
Proof. solve_decision. Defined.

Record Arr (A : Type) : Type := mkArr { ident : ref; elems : list A }.
Arguments mkArr {A} ident elems.
Arguments ident {A} a.
Arguments elems {A} a.

(** [Object.is] on two possibly-undefined arrays. *)
Definition same_ref {A : Type} (a b : option (Arr A)) : bool :=
  match a, b with
  | None, None => true
  | Some a, Some b => bool_decide (ident a = ident b)
  | _, _ => false
  end.

Module FlowChartArgs.
Record t : Type := mk {
  nodes : option (Arr MeasuredNode.t);
  edges : option (Arr Edge.t);
  borderNodeId : option string;
  theme : option Theme.t
}.
End FlowChartArgs.

Module FlowChart.

(** The value of the [initialData] memo. *)
Record InitialData : Type := mkInitialData {
  initialNodesOf : Arr MeasuredNode.t;
  initialEdgesOf : Arr Edge.t
}.

(** A node-state update queued by an effect. *)
Inductive action : Type :=
  | SetNodes (a : Arr MeasuredNode.t)
      (* [setNodes(args.nodes)], line 165 *)
  | MapBorder (primaryColor nodeId : string).
      (* [setNodes((prevNodes) => prevNodes.map(...))], lines 175-185 *)

(** The hook state of one mounted [FlowChart]: the two memos, the node and
    edge state, the dependencies the update effect and the border effect
    last ran with, the supply of array identities, and a record of every
    call of [getLayoutedElements] made while rendering. *)
Record Fiber : Type := mkFiber {
  initialDataDeps : option (Arr MeasuredNode.t) * option (Arr Edge.t);
  initialData : InitialData;
  layoutedDataDeps : Arr MeasuredNode.t * Arr Edge.t;
  layoutedData : Layouted.t;
  nodes : Arr MeasuredNode.t;         (* [useNodesState] *)
  edges : Arr Edge.t;                 (* [useEdgesState] *)
  updateDeps : option (Arr MeasuredNode.t) * option (Arr Edge.t);
  borderDeps : ref * option string * string;
  nextRef : nat;
  layoutRuns : list (list MeasuredNode.t * list Edge.t)
}.

(** Lines 133-136, the memo's factory. *)
Definition makeInitialData (args : FlowChartArgs.t) : InitialData :=
  mkInitialData
    (default (mkArr RefBuiltin initialNodes) (FlowChartArgs.nodes args))
    (default (mkArr RefBuiltin initialEdges) (FlowChartArgs.edges args)).

(** The [initialData] memo in a render after mount: recomputed when
    [args.nodes] or [args.edges] is another object. *)
Definition nextInitialData (args : FlowChartArgs.t) (f : Fiber) : InitialData :=
  if same_ref (FlowChartArgs.nodes args) (initialDataDeps f).1
     && same_ref (FlowChartArgs.edges args) (initialDataDeps f).2
  then initialData f else makeInitialData args.

(** The sequences the [layoutedData] memo of that render reads. *)
Definition layoutInputs (args : FlowChartArgs.t) (f : Fiber)
  : list MeasuredNode.t * list Edge.t :=
  (elems (initialNodesOf (nextInitialData args f)),
   elems (initialEdgesOf (nextInitialData args f))).

(** Whether the update effect's dependencies differ from the last render. *)
Definition updateDepsChanged (args : FlowChartArgs.t) (f : Fiber) : bool :=
  negb (same_ref (FlowChartArgs.nodes args) (fst (updateDeps f))
        && same_ref (FlowChartArgs.edges args) (snd (updateDeps f))).

(** Lines 163-170, the body of the update effect: [setNodes(args.nodes)]
    is queued and [setEdges(args.edges)] replaces the edge state, each when
    the prop is there. *)
Definition updateActions (args : FlowChartArgs.t) : list action :=
  match FlowChartArgs.nodes args with
  | Some a => [SetNodes a]
  | None => []
  end.

Definition updateEdges (args : FlowChartArgs.t) (edges : Arr Edge.t) : Arr Edge.t :=
  default edges (FlowChartArgs.edges args).

(** Lines 191-202, the body of the border effect in a render whose node
    state is [nodes]: the updater of [addBorderToNode] is queued when the
    guard fails. *)
Definition borderActions (borderNodeId : option string) (primaryColor : string)
    (nodes : list MeasuredNode.t) : list action :=
  if borderEffectFires borderNodeId primaryColor nodes
  then [MapBorder primaryColor (default "" borderNodeId)]
  else [].

(** The border effect's dependencies, [nodes] by identity;
    [addBorderToNode] is another function exactly when
    [styles.primaryColor] is another string. *)
Definition borderDepsOf (args : FlowChartArgs.t) (f : Fiber)
  : ref * option string * string :=
  (ident (nodes f), FlowChartArgs.borderNodeId args,
   Styles.primaryColor (useFlowChartStyles (FlowChartArgs.theme args))).

Definition borderDepsChanged (args : FlowChartArgs.t) (f : Fiber) : bool :=
  negb (bool_decide (borderDepsOf args f = borderDeps f)).

(** The queued updates are applied in order; the updater of
    [addBorderToNode] builds a new array. *)
Definition applyAction (st : Arr MeasuredNode.t * nat) (a : action)
  : Arr MeasuredNode.t * nat :=
  match a with
  | SetNodes a => (a, st.2)
  | MapBorder primaryColor nodeId =>
      (mkArr (RefFresh st.2) (addBorderToNode primaryColor nodeId (elems st.1)),
       S st.2)
  end.

(** Under the [React.StrictMode] of [index.tsx], a development build calls
    a memo's factory twice and runs the effects of the first commit
    twice. *)
Definition twiceIf {A : Type} (strict : bool) (l : list A) : list A :=
  if strict then (l ++ l)%list else l.

Section Render.

Variable strict : bool.
Variable layout : Dagre.Graph → option Dagre.Graph.

(** First render and first commit: both memos are computed, the state is
    seeded with the layouted data, and every effect runs. *)
Definition mount (args : FlowChartArgs.t) : result Fiber :=
  let primaryColor :=
    Styles.primaryColor (useFlowChartStyles (FlowChartArgs.theme args)) in
  let deps := (FlowChartArgs.nodes args, FlowChartArgs.edges args) in
  let initialData := makeInitialData args in
  let ns := elems (initialNodesOf initialData) in
  let es := elems (initialEdgesOf initialData) in
  match getLayoutedElements layout ns es tbOptions with
  | Throw e => Throw e
  | Ok layoutedData =>
      let nodes0 := mkArr (RefFresh 0) (Layouted.nodes layoutedData) in
      let edges0 :=
        mkArr (ident (initialEdgesOf initialData)) (Layouted.edges layoutedData) in
      let effects :=
        (updateActions args
         ++ borderActions (FlowChartArgs.borderNodeId args) primaryColor
              (elems nodes0))%list in
      let '(nodes, next) :=
        fold_left applyAction (twiceIf strict effects) (nodes0, 1) in
      Ok (mkFiber deps initialData
            (initialNodesOf initialData, initialEdgesOf initialData) layoutedData
            nodes (updateEdges args edges0) deps
            (ident nodes0, FlowChartArgs.borderNodeId args, primaryColor) next
            (twiceIf strict [(ns, es)]))
  end.

(** The memos of a render after mount: [layoutedData] is recomputed when
    [initialData.nodes] or [initialData.edges] is another object. *)
Definition renderLayout (args : FlowChartArgs.t) (f : Fiber)
  : result (Layouted.t * list (list MeasuredNode.t * list Edge.t)) :=
  let initialData := nextInitialData args f in
  if bool_decide (ident (initialNodesOf initialData) = ident (layoutedDataDeps f).1)
     && bool_decide (ident (initialEdgesOf initialData) = ident (layoutedDataDeps f).2)
  then Ok (layoutedData f, layoutRuns f)
  else
    let ns := elems (initialNodesOf initialData) in
    let es := elems (initialEdgesOf initialData) in
    match getLayoutedElements layout ns es tbOptions with
    | Throw e => Throw e
    | Ok l => Ok (l, (layoutRuns f ++ twiceIf strict [(ns, es)])%list)
    end.

(** The commit of that render: the update effect runs when [args.nodes] or
    [args.edges] is another object, then the border effect when one of its
    dependencies changed, reading the node state the render saw; the queued
    updates make the next node state.  [useNodesState] and [useEdgesState]
    ignore their argument after mount. *)
Definition commit (args : FlowChartArgs.t) (f : Fiber) (layoutedData : Layouted.t)
    (runs : list (list MeasuredNode.t * list Edge.t)) : Fiber :=
  let primaryColor :=
    Styles.primaryColor (useFlowChartStyles (FlowChartArgs.theme args)) in
  let deps := (FlowChartArgs.nodes args, FlowChartArgs.edges args) in
  let initialData := nextInitialData args f in
  let queue :=
    ((if updateDepsChanged args f then updateActions args else [])
     ++ (if borderDepsChanged args f
         then borderActions (FlowChartArgs.borderNodeId args) primaryColor
                (elems (nodes f))
         else []))%list in
  let st := fold_left applyAction queue (nodes f, nextRef f) in
  mkFiber deps initialData
    (initialNodesOf initialData, initialEdgesOf initialData) layoutedData
    st.1 (if updateDepsChanged args f then updateEdges args (edges f) else edges f)
    deps (borderDepsOf args f) st.2 runs.

(** One render with the props [args] after mount, and its commit. *)
Definition pass (args : FlowChartArgs.t) (f : Fiber) : result Fiber :=
  match renderLayout args f with
  | Throw e => Throw e
  | Ok (layoutedData, runs) => Ok (commit args f layoutedData runs)
  end.

End Render.

End FlowChart.

(** ** The deferred fit-view call *)

Module FitView.

(** The timer queue of the event loop as far as the fit-view effect of
    lines 213-218 uses it, with a record of every [fitView()] call. *)
Record State : Type := mkState {
  mounted : bool;
  nextTimer : nat;                   (* the id [setTimeout] returns next *)
  pending : list nat;                (* timers set, neither run nor cleared *)
  cleanup : option nat;              (* [timeoutId] held by the live cleanup *)
  fitViewCalls : list (nat * bool)   (* timer that called, and whether the
                                        component was mounted at that time *)
}.

Definition init : State := mkState false 0 [] None [].

Inductive event : Type :=
  | Mount
  | FitViewChanged        (* a render in which [fitView] is another function *)
  | Unmount
  | Fire (t : nat).       (* the event loop runs the callback of timer [t] *)

(** [clearTimeout(t)] *)
Definition clearTimeout (t : nat) (s : State) : State :=
  mkState (mounted s) (nextTimer s) (filter (λ t', t' ≠ t) (pending s))
          (cleanup s) (fitViewCalls s).

(** The effect body: [const timeoutId = setTimeout(..., 0)], and the
    cleanup that remembers [timeoutId]. *)
Definition runEffect (s : State) : State :=
  let timeoutId := nextTimer s in
  mkState (mounted s) (S (nextTimer s)) (pending s ++ [timeoutId])
          (Some timeoutId) (fitViewCalls s).

(** The cleanup returned by the last run of the effect:
    [() => clearTimeout(timeoutId)]. *)
Definition runCleanup (s : State) : State :=
  match cleanup s with
  | Some timeoutId =>
      let s := clearTimeout timeoutId s in
      mkState (mounted s) (nextTimer s) (pending s) None (fitViewCalls s)
  | None => s
  end.

Definition setMounted (b : bool) (s : State) : State :=
  mkState b (nextTimer s) (pending s) (cleanup s) (fitViewCalls s).

Definition step (e : event) (s : State) : State :=
  match e with
  | Mount => if mounted s then s else runEffect (setMounted true s)
  | FitViewChanged => if mounted s then runEffect (runCleanup s) else s
  | Unmount => if mounted s then setMounted false (runCleanup s) else s
  | Fire t =>
      if bool_decide (t ∈ pending s)
      then mkState (mounted s) (nextTimer s) (filter (λ t', t' ≠ t) (pending s))
                   (cleanup s) (fitViewCalls s ++ [(t, mounted s)])
      else s
  end.

Definition run (evs : list event) (s : State) : State :=
  fold_left (λ s e, step e s) evs s.

(** What holds in every state reached from [init]. *)
Definition Inv (s : State) : Prop :=
  (∀ t, t ∈ pending s →
     t < nextTimer s ∧ cleanup s = Some t ∧ mounted s = true
     ∧ (t ∉ (fitViewCalls s).*1))
  ∧ (∀ t b, (t, b) ∈ fitViewCalls s → t < nextTimer s ∧ b = true).

(** Timer [t] was handed out, is not pending and has not run. *)
Definition cancelled (t : nat) (s : State) : Prop :=
  t < nextTimer s ∧ (t ∉ pending s) ∧ (t ∉ (fitViewCalls s).*1).

End FitView.

(** The layout returns on the graph of these sequences and keeps the
    labels it was given there. *)
Definition layoutReturnsOn (layout : Dagre.Graph → option Dagre.Graph)
    (input : list MeasuredNode.t * list Edge.t) : Prop :=
  ∃ g,
    layout (buildGraph input.1 input.2 tbOptions) = Some g
    ∧ Dagre.keepsLabels (buildGraph input.1 input.2 tbOptions) g = true.

(** Props with no graph, and a host message carrying the sample graph. *)
Definition noArgs : FlowChartArgs.t := FlowChartArgs.mk None None None None.

Definition sampleArgs : FlowChartArgs.t :=
  FlowChartArgs.mk (Some (mkArr (RefHost 1) sampleNodes))
                   (Some (mkArr (RefHost 2) sampleEdges)) None None.

(** The pushed node array is an object that neither memo has seen in the
    previous render. *)
Definition freshNodes (a : Arr MeasuredNode.t) (f : FlowChart.Fiber) : bool :=
  negb (same_ref (Some a) (fst (FlowChart.initialDataDeps f)))
  && negb (bool_decide (ident a = ident (fst (FlowChart.layoutedDataDeps f)))).

(** The state of a [FlowChart] mounted without host data in a production
    build, under [stackLayout]: the built-in node sits at the origin. *)
Definition defaultFiber : FlowChart.Fiber :=
  FlowChart.mkFiber (None, None)
    (FlowChart.mkInitialData (mkArr RefBuiltin initialNodes) (mkArr RefBuiltin initialEdges))
    (mkArr RefBuiltin initialNodes, mkArr RefBuiltin initialEdges)
    (Layouted.mk initialNodes initialEdges)
    (mkArr (RefFresh 0) initialNodes) (mkArr RefBuiltin initialEdges) (None, None)
    (RefFresh 0, None, "#007bff") 1
    [(initialNodes, initialEdges)].

(** The same host message with a highlight request, and the state of a
    production build that was mounted without host data, received
    [sampleArgs] and re-rendered once. *)
Definition sampleBorderArgs : FlowChartArgs.t :=
  FlowChartArgs.mk (Some (mkArr (RefHost 1) sampleNodes))
                   (Some (mkArr (RefHost 2) sampleEdges)) (Some "n1") None.

Definition sampleFiber : FlowChart.Fiber :=
  FlowChart.mkFiber
    (FlowChartArgs.nodes sampleArgs, FlowChartArgs.edges sampleArgs)
    (FlowChart.makeInitialData sampleArgs)
    (mkArr (RefHost 1) sampleNodes, mkArr (RefHost 2) sampleEdges)
    (Layouted.mk
       (zip_with MeasuredNode.with_position sampleNodes
          [XYPosition.mk 0 0; XYPosition.mk 0 90]) sampleEdges)
    (mkArr (RefHost 1) sampleNodes) (mkArr (RefHost 2) sampleEdges)
    (FlowChartArgs.nodes sampleArgs, FlowChartArgs.edges sampleArgs)
    (RefHost 1, None, "#007bff") 1
    [(initialNodes, initialEdges); (sampleNodes, sampleEdges)].

(** ** What the layout reads of its input *)

(** The label object of lines 59-62. *)
Definition graphLabel (node : MeasuredNode.t) : Dagre.Label :=
  Dagre.mkLabel (nodeWidth node) (nodeHeight node) None None.

(** The part of a node that reaches the graph: its id and effective size. *)
Definition layoutKey (node : MeasuredNode.t) : string * float * float :=
  (MeasuredNode.id node, nodeWidth node, nodeHeight node).

(** The part of an edge that reaches the graph. *)
Definition endpoints (edge : Edge.t) : string * string :=
  (Edge.source edge, Edge.target edge).

(** ** Resolved styles as a theme, effect firing, render sessions *)

(** The theme that spells out every colour of a resolved style. *)
Definition themeOfStyles (base : option string) (st : Styles.t) : Theme.t :=
  Theme.mk base (Some (Styles.backgroundColor st)) (Some (Styles.textColor st))
           (Some (Styles.primaryColor st)).

(** A mounted component rendered with one props object after another;
    a repeated props object is a re-render caused by a state update. *)
Fixpoint renders (strict : bool) (layout : Dagre.Graph → option Dagre.Graph)
    (f : FlowChart.Fiber) (argss : list FlowChartArgs.t) : result FlowChart.Fiber :=
  match argss with
  | [] => Ok f
  | args :: argss' =>
      match FlowChart.pass strict layout args f with
      | Throw e => Throw e
      | Ok f' => renders strict layout f' argss'
      end
  end.

Definition session (strict : bool) (layout : Dagre.Graph → option Dagre.Graph)
    (args : FlowChartArgs.t) (argss : list FlowChartArgs.t) : result FlowChart.Fiber :=
  match FlowChart.mount strict layout args with
  | Throw e => Throw e
  | Ok f => renders strict layout f argss
  end.

(** What the hooks of a mounted component agree on: the two dependency
    lists over the props are the same, and the layout memo was last run on
    the arrays of the current [initialData]. *)
Definition hooksAgree (f : FlowChart.Fiber) : Prop :=
  FlowChart.initialDataDeps f = FlowChart.updateDeps f
  ∧ ident (FlowChart.layoutedDataDeps f).1
    = ident (FlowChart.initialNodesOf (FlowChart.initialData f))
  ∧ ident (FlowChart.layoutedDataDeps f).2
    = ident (FlowChart.initialEdgesOf (FlowChart.initialData f)).

(** What holds of the hook state once a push of [args] has been
    committed, and after every re-render that follows it: the update effect
    has nothing left to do, the memos are settled, the edge state is
    [edges], the node state is [base] up to the border entries written by
    [addBorderToNode], and the record of layout runs is [runs]. *)
Definition afterPush (args : FlowChartArgs.t) (base : Arr MeasuredNode.t)
    (edges : Arr Edge.t) (runs : list (list MeasuredNode.t * list Edge.t))
    (f : FlowChart.Fiber) : Prop :=
  FlowChart.updateDepsChanged args f = false
  ∧ hooksAgree f
  ∧ FlowChart.edges f = edges
  ∧ (elems (FlowChart.nodes f) = elems base
     ∨ elems (FlowChart.nodes f)
       = addBorderToNode
           (Styles.primaryColor (useFlowChartStyles (FlowChartArgs.theme args)))
           (default "" (FlowChartArgs.borderNodeId args)) (elems base))
  ∧ ((FlowChartArgs.borderNodeId args = None
      ∨ FlowChartArgs.borderNodeId args = Some "") →
     FlowChart.nodes f = base)
  ∧ FlowChart.layoutRuns f = runs.

(** * Properties *)

(** ** JavaScript values and exceptions *)

Lemma strict_eq_str_true v s : strict_eq_str v s = true ↔ v = JStr s.
Proof.
  destruct v; simpl; try (split; [discriminate | congruence]).
  rewrite bool_decide_eq_true. split; congruence.
Qed.

Lemma map_result_ok {A B : Type} (f : A → result B) (l : list A) :
  (∀ a, a ∈ l → ∃ b, f a = Ok b) →
  ∃ bs, map_result f l = Ok bs ∧ Forall2 (λ a b, f a = Ok b) l bs.
Proof.
  induction l as [|a l IH]; intros Hall; simpl.
  - exists []. split; [reflexivity | constructor].
  - destruct (Hall a) as [b Hb]; [left |].
    destruct IH as (bs & Hbs & HF).
    { intros a' Ha'. apply Hall. by right. }
    exists (b :: bs). rewrite Hb, Hbs. split; [reflexivity | by constructor].
Qed.

(** ** The graph container *)

Module DagreFacts.
Import Dagre.

Lemma lookup_store_eq v l ns : lookup_node v (store_node v l ns) = Some l.
Proof.
  induction ns as [|[k l0] ns IH]; simpl.
  - by rewrite decide_True.
  - destruct (decide (k = v)); simpl.
    + by rewrite decide_True.
    + by rewrite decide_False.
Qed.

Lemma lookup_store_ne v w l ns :
  v ≠ w → lookup_node w (store_node v l ns) = lookup_node w ns.
Proof.
  intros Hne. induction ns as [|[k l0] ns IH]; simpl.
  - by rewrite decide_False.
  - destruct (decide (k = v)) as [->|Hk]; simpl.
    + by rewrite !decide_False.
    + destruct (decide (k = w)); done.
Qed.

Lemma lookup_snoc_undefined v w ns :
  mjoin (lookup_node w (ns ++ [(v, None)])) = mjoin (lookup_node w ns).
Proof.
  induction ns as [|[k l0] ns IH]; simpl.
  - by destruct (decide (v = w)).
  - by destruct (decide (k = w)).
Qed.

Lemma node_setNode_eq v l g : node (setNode v l g) v = Some l.
Proof. unfold node, setNode; simpl. by rewrite lookup_store_eq. Qed.

Lemma node_setNode_ne v w l g : v ≠ w → node (setNode v l g) w = node g w.
Proof. intros. unfold node, setNode; simpl. by rewrite lookup_store_ne. Qed.

Lemma node_ensureNode v w g : node (ensureNode v g) w = node g w.
Proof.
  unfold ensureNode. destruct (hasNode g v || bool_decide (v = "__proto__")); [done |].
  unfold node; simpl. apply lookup_snoc_undefined.
Qed.

(** Adding an edge never touches a label, also when it creates nodes. *)
Lemma node_setEdge v w u g : node (setEdge v w g) u = node g u.
Proof.
  unfold setEdge. destruct (hasEdge g v w); [done |].
  unfold node at 1; simpl. fold (node (ensureNode w (ensureNode v g)) u).
  by rewrite !node_ensureNode.
Qed.

Lemma keepsLabels_spec g g' v :
  keepsLabels g g' = true → is_Some (node g v) → is_Some (node g' v).
Proof.
  unfold keepsLabels. intros Hall Hv.
  assert (∃ l, (v, l) ∈ nodes g) as [l Hin].
  { unfold node in Hv. revert Hv. generalize (nodes g) as ns.
    induction ns as [|[k l0] ns IH]; simpl; intros Hv.
    - by apply is_Some_None in Hv.
    - destruct (decide (k = v)) as [->|].
      + exists l0. by left.
      + destruct (IH Hv) as [l Hl]. exists l. by right. }
  rewrite forallb_forall in Hall.
  apply list_elem_of_In, Hall in Hin.
  destruct Hv as [c Hc]. rewrite Hc in Hin.
  by apply bool_decide_eq_true in Hin.
Qed.

Lemma is_Some_node_setNode v l g u :
  is_Some (node g u) → is_Some (node (setNode v l g) u).
Proof.
  intros Hu. destruct (decide (v = u)) as [->|Hne].
  - rewrite node_setNode_eq. by eexists.
  - by rewrite node_setNode_ne.
Qed.

Lemma edges_ensureNode v g : edges (ensureNode v g) = edges g.
Proof.
  unfold ensureNode. by destruct (hasNode g v || bool_decide (v = "__proto__")).
Qed.

End DagreFacts.

(** ** The layout adapter *)

Section LayoutFacts.
Import DagreFacts.

Implicit Types (node : MeasuredNode.t) (g : Dagre.Graph).

Let addNode := λ g node,
  Dagre.setNode (MeasuredNode.id node)
    (Dagre.mkLabel (nodeWidth node) (nodeHeight node) None None) g.
Let addEdge := λ g (edge : Edge.t),
  Dagre.setEdge (Edge.source edge) (Edge.target edge) g.

Lemma addEdges_node (es : list Edge.t) g u :
  Dagre.node (fold_left addEdge es g) u = Dagre.node g u.
Proof.
  revert g. induction es as [|e es IH]; intros g; simpl; [done |].
  rewrite IH. apply node_setEdge.
Qed.

Lemma addNodes_preserves_label (ns : list MeasuredNode.t) g u :
  is_Some (Dagre.node g u) → is_Some (Dagre.node (fold_left addNode ns g) u).
Proof.
  revert g. induction ns as [|n ns IH]; intros g Hu; simpl; [done |].
  apply IH, is_Some_node_setNode, Hu.
Qed.

Lemma addNodes_labels_input (ns : list MeasuredNode.t) g node :
  node ∈ ns →
  is_Some (Dagre.node (fold_left addNode ns g) (MeasuredNode.id node)).
Proof.
  revert g. induction ns as [|n ns IH]; intros g Hin; simpl.
  - by apply elem_of_nil in Hin.
  - apply elem_of_cons in Hin as [-> | Hin]; [| by apply IH].
    apply addNodes_preserves_label. unfold addNode.
    rewrite node_setNode_eq. by eexists.
Qed.

Lemma addNodes_node_other (ns : list MeasuredNode.t) g u :
  u ∉ map MeasuredNode.id ns →
  Dagre.node (fold_left addNode ns g) u = Dagre.node g u.
Proof.
  revert g. induction ns as [|n ns IH]; intros g Hu; simpl; [done |].
  simpl in Hu. apply not_elem_of_cons in Hu as [Hne Hu].
  rewrite IH by done. unfold addNode. by apply node_setNode_ne.
Qed.

Lemma addNodes_node_own (ns : list MeasuredNode.t) g node :
  NoDup (map MeasuredNode.id ns) → node ∈ ns →
  Dagre.node (fold_left addNode ns g) (MeasuredNode.id node)
  = Some (Dagre.mkLabel (nodeWidth node) (nodeHeight node) None None).
Proof.
  revert g. induction ns as [|n ns IH]; intros g Hnd Hin; simpl.
  - by apply elem_of_nil in Hin.
  - simpl in Hnd. apply NoDup_cons in Hnd as [Hn Hnd].
    apply elem_of_cons in Hin as [-> | Hin].
    + rewrite addNodes_node_other by done. apply node_setNode_eq.
    + by apply IH.
Qed.

Lemma addNodes_edges (ns : list MeasuredNode.t) g :
  Dagre.edges (fold_left addNode ns g) = Dagre.edges g.
Proof. revert g. induction ns as [|n ns IH]; intros g; simpl; [done | by rewrite IH]. Qed.

(** The label of every input node can be read back from the built graph. *)
Lemma buildGraph_labels_input nodes edges options node :
  node ∈ nodes →
  is_Some (Dagre.node (buildGraph nodes edges options) (MeasuredNode.id node)).
Proof.
  intros Hin. unfold buildGraph. fold addNode addEdge.
  rewrite addEdges_node. by apply addNodes_labels_input.
Qed.

(** With distinct ids, it is the label built from the node itself. *)
Lemma buildGraph_node_own nodes edges options node :
  NoDup (map MeasuredNode.id nodes) → node ∈ nodes →
  Dagre.node (buildGraph nodes edges options) (MeasuredNode.id node)
  = Some (Dagre.mkLabel (nodeWidth node) (nodeHeight node) None None).
Proof.
  intros Hnd Hin. unfold buildGraph. fold addNode addEdge.
  rewrite addEdges_node. by apply addNodes_node_own.
Qed.

Variable layout : Dagre.Graph → option Dagre.Graph.

(** When the layout returns and keeps the labels it was given, the adapter
    returns: every input node has a centre to read. *)
Lemma getLayoutedElements_returns nodes edges options g :
  layout (buildGraph nodes edges options) = Some g →
  Dagre.keepsLabels (buildGraph nodes edges options) g = true →
  ∃ out,
    getLayoutedElements layout nodes edges options = Ok (Layouted.mk out edges)
    ∧ Forall2 (λ node node', placeNode g node = Ok node') nodes out.
Proof.
  intros Hl Hk. unfold getLayoutedElements. rewrite Hl.
  destruct (map_result_ok (placeNode g) nodes) as (out & Hout & HF).
  - intros node Hin. unfold placeNode.
    destruct (keepsLabels_spec _ _ (MeasuredNode.id node) Hk) as [c ->];
      [by apply buildGraph_labels_input | by eexists].
  - exists out. by rewrite Hout.
Qed.

Lemma placeNode_inv g node node' :
  placeNode g node = Ok node' →
  ∃ c, Dagre.node g (MeasuredNode.id node) = Some c
       ∧ node' = MeasuredNode.with_position node
           (XYPosition.mk
              (toNumber (Dagre.x c) - nodeWidth node / 2)%float
              (toNumber (Dagre.y c) - nodeHeight node / 2)%float).
Proof.
  unfold placeNode. destruct (Dagre.node g (MeasuredNode.id node)) as [c|]; [| done].
  intros [= <-]. by exists c.
Qed.

End LayoutFacts.

(** * The layout operation *)

(** C1: when the layout returns, the adapter returns one placed node per
    input node, at the same index, whose position is the centre the layout
    reports for the node's id minus half the node's width and height; for a
    node measured as (w, h) with reported centre (cx, cy) this is
    (cx − w/2, cy − h/2). *)
Theorem getLayoutedElements_centres_nodes
    (layout : Dagre.Graph → option Dagre.Graph) nodes edges options g :
  layout (buildGraph nodes edges options) = Some g →
  Dagre.keepsLabels (buildGraph nodes edges options) g = true →
  ∃ out,
    getLayoutedElements layout nodes edges options = Ok (Layouted.mk out edges)
    ∧ ∀ i node, nodes !! i = Some node →
        ∃ node' c,
          out !! i = Some node'
          ∧ Dagre.node g (MeasuredNode.id node) = Some c
          ∧ MeasuredNode.position node'
            = XYPosition.mk (toNumber (Dagre.x c) - nodeWidth node / 2)%float
                            (toNumber (Dagre.y c) - nodeHeight node / 2)%float
          ∧ ∀ w h cx cy,
              MeasuredNode.measured node
                = Some (MeasuredDimensions.mk (Some w) (Some h)) →
              Dagre.x c = Some cx → Dagre.y c = Some cy →
              MeasuredNode.position node'
              = XYPosition.mk (cx - w / 2)%float (cy - h / 2)%float.
Proof.
  intros Hl Hk.
  destruct (getLayoutedElements_returns layout nodes edges options g Hl Hk)
    as (out & Hout & HF).
  exists out. split; [done |]. intros i node Hi.
  destruct (Forall2_lookup_l _ _ _ _ _ HF Hi) as (node' & Hi' & Hp).
  apply placeNode_inv in Hp as (c & Hc & ->).
  eexists _, c. repeat split; [done .. |].
  intros w h cx cy Hm Hx Hy. simpl.
  unfold nodeWidth, nodeHeight. by rewrite Hm, Hx, Hy.
Qed.

Lemma getLayoutedElements_centres_nodes_witness :
  ∃ out,
    getLayoutedElements stackLayout sampleNodes sampleEdges tbOptions
      = Ok (Layouted.mk out sampleEdges)
    ∧ ∀ i node, sampleNodes !! i = Some node →
        ∃ node' c,
          out !! i = Some node'
          ∧ MeasuredNode.position node'
            = XYPosition.mk (toNumber (Dagre.x c) - nodeWidth node / 2)%float
                            (toNumber (Dagre.y c) - nodeHeight node / 2)%float.
Proof.
  destruct (getLayoutedElements_centres_nodes stackLayout sampleNodes
              sampleEdges tbOptions _ eq_refl eq_refl) as (out & Hout & H).
  exists out. split; [exact Hout |]. intros i node Hi.
  destruct (H i node Hi) as (node' & c & Hi' & _ & Hp & _).
  exists node', c. split; [exact Hi' | exact Hp].
Defined.

(** C2: a node without measured size is handed to the graph with the
    label 100 × 50, which is the label the layout finds under the node's id
    when node ids are distinct, and its position is the reported centre
    minus 100/2 and 50/2. *)
Theorem getLayoutedElements_default_size
    (layout : Dagre.Graph → option Dagre.Graph) nodes edges options g :
  layout (buildGraph nodes edges options) = Some g →
  Dagre.keepsLabels (buildGraph nodes edges options) g = true →
  ∃ out,
    getLayoutedElements layout nodes edges options = Ok (Layouted.mk out edges)
    ∧ ∀ i node, nodes !! i = Some node → MeasuredNode.measured node = None →
        Dagre.mkLabel (nodeWidth node) (nodeHeight node) None None
          = Dagre.mkLabel 100 50 None None
        ∧ (NoDup (map MeasuredNode.id nodes) →
           Dagre.node (buildGraph nodes edges options) (MeasuredNode.id node)
             = Some (Dagre.mkLabel 100 50 None None))
        ∧ ∃ node' c,
            out !! i = Some node'
            ∧ Dagre.node g (MeasuredNode.id node) = Some c
            ∧ MeasuredNode.position node'
              = XYPosition.mk (toNumber (Dagre.x c) - 100 / 2)%float
                              (toNumber (Dagre.y c) - 50 / 2)%float.
Proof.
  intros Hl Hk.
  destruct (getLayoutedElements_returns layout nodes edges options g Hl Hk)
    as (out & Hout & HF).
  exists out. split; [done |]. intros i node Hi Hm.
  assert (nodeWidth node = 100%float ∧ nodeHeight node = 50%float) as [Hw Hh].
  { unfold nodeWidth, nodeHeight. by rewrite Hm. }
  split; [by rewrite Hw, Hh |]. split.
  - intros Hnd. rewrite (buildGraph_node_own nodes edges options node Hnd).
    + by rewrite Hw, Hh.
    + by eapply list_elem_of_lookup_2.
  - destruct (Forall2_lookup_l _ _ _ _ _ HF Hi) as (node' & Hi' & Hp).
    apply placeNode_inv in Hp as (c & Hc & ->).
    rewrite Hw, Hh in Hi'. eexists _, c. by repeat split.
Qed.

Lemma getLayoutedElements_default_size_witness :
  ∃ node' c,
    Dagre.node (buildGraph sampleNodes sampleEdges tbOptions) "n2"
      = Some (Dagre.mkLabel 100 50 None None)
    ∧ Dagre.x c = Some 50%float ∧ Dagre.y c = Some 115%float
    ∧ MeasuredNode.position node'
      = XYPosition.mk (toNumber (Dagre.x c) - 100 / 2)%float
                      (toNumber (Dagre.y c) - 50 / 2)%float
    ∧ MeasuredNode.position node' = XYPosition.mk 0 90.
Proof.
  destruct (getLayoutedElements_default_size stackLayout sampleNodes sampleEdges
              tbOptions _ eq_refl eq_refl) as (out & Hout & H).
  destruct (H 1%nat
              (MeasuredNode.mk "n2" (Some "output") (XYPosition.mk 0 0) JNull None
                 (Some {[ "border" := JStr "2px solid #007bff"; "color" := JStr "red" ]})
                 {[ "selected" := JBool true ]}) eq_refl eq_refl)
    as (_ & Hg & node' & c & _ & Hc & Hp).
  exists node', c.
  assert (NoDup (map MeasuredNode.id sampleNodes)) as Hnd.
  { apply (bool_decide_unpack _). vm_compute. exact I. }
  split; [exact (Hg Hnd) |].
  vm_compute in Hc. injection Hc as <-.
  split; [reflexivity |]. split; [reflexivity |].
  split; [exact Hp |]. rewrite Hp. reflexivity.
Defined.




(** C7: the adapter returns the edge sequence it was given and a node
    sequence of the same length in which the node at each index keeps every
    field but [position]. *)
Theorem getLayoutedElements_frame
    (layout : Dagre.Graph → option Dagre.Graph) nodes edges options g :
  layout (buildGraph nodes edges options) = Some g →
  Dagre.keepsLabels (buildGraph nodes edges options) g = true →
  ∃ r,
    getLayoutedElements layout nodes edges options = Ok r
    ∧ Layouted.edges r = edges
    ∧ length (Layouted.nodes r) = length nodes
    ∧ ∀ i node, nodes !! i = Some node →
        ∃ node',
          Layouted.nodes r !! i = Some node'
          ∧ MeasuredNode.id node' = MeasuredNode.id node
          ∧ MeasuredNode.type node' = MeasuredNode.type node
          ∧ MeasuredNode.data node' = MeasuredNode.data node
          ∧ MeasuredNode.measured node' = MeasuredNode.measured node
          ∧ MeasuredNode.style node' = MeasuredNode.style node
          ∧ MeasuredNode.rest node' = MeasuredNode.rest node.
Proof.
  intros Hl Hk.
  destruct (getLayoutedElements_returns layout nodes edges options g Hl Hk)
    as (out & Hout & HF).
  eexists. split; [exact Hout |]. simpl.
  split; [done |]. split; [symmetry; by eapply Forall2_length |].
  intros i node Hi.
  destruct (Forall2_lookup_l _ _ _ _ _ HF Hi) as (node' & Hi' & Hp).
  apply placeNode_inv in Hp as (c & _ & ->).
  eexists. split; [exact Hi' |]. by repeat split.
Qed.

Lemma getLayoutedElements_frame_witness :
  ∃ r,
    getLayoutedElements stackLayout sampleNodes sampleEdges tbOptions = Ok r
    ∧ Layouted.edges r = sampleEdges
    ∧ length (Layouted.nodes r) = length sampleNodes
    ∧ ∀ i node, sampleNodes !! i = Some node →
        ∃ node',
          Layouted.nodes r !! i = Some node'
          ∧ MeasuredNode.id node' = MeasuredNode.id node
          ∧ MeasuredNode.type node' = MeasuredNode.type node
          ∧ MeasuredNode.data node' = MeasuredNode.data node
          ∧ MeasuredNode.measured node' = MeasuredNode.measured node
          ∧ MeasuredNode.style node' = MeasuredNode.style node
          ∧ MeasuredNode.rest node' = MeasuredNode.rest node.
Proof.
  exact (getLayoutedElements_frame stackLayout sampleNodes sampleEdges
           tbOptions _ eq_refl eq_refl).
Defined.

(** The adapter on the sample graph, evaluated. *)
Example getLayoutedElements_sample :
  Layouted.nodes <$>
    (match getLayoutedElements stackLayout sampleNodes sampleEdges tbOptions with
     | Ok r => Some r
     | Throw _ => None
     end)
  = Some (zip_with MeasuredNode.with_position sampleNodes
            [XYPosition.mk 0 0; XYPosition.mk 0 90]).
Proof. vm_compute. reflexivity. Qed.

(** * Theme resolution *)

(** C9, as amended: when a theme field is absent the resolved style falls
    back to a default; for the background and the text colour the default
    is selected by [theme.base] (["#333"] / ["#fff"] for ["dark"],
    ["#fff"] / ["#000"] otherwise), for the primary colour it is the
    constant ["#007bff"], whatever the base. *)
Theorem useFlowChartStyles_defaults (theme : option Theme.t) :
  (theme ≫= Theme.secondaryBackgroundColor = None →
     Styles.backgroundColor (useFlowChartStyles theme)
     = if isDark theme then "#333" else "#fff")
  ∧ (theme ≫= Theme.textColor = None →
     Styles.textColor (useFlowChartStyles theme)
     = if isDark theme then "#fff" else "#000")
  ∧ (theme ≫= Theme.primaryColor = None →
     Styles.primaryColor (useFlowChartStyles theme) = "#007bff").
Proof.
  unfold useFlowChartStyles; cbn [Styles.backgroundColor Styles.textColor Styles.primaryColor].
  repeat split; intros ->; reflexivity.
Qed.

Lemma useFlowChartStyles_defaults_witness :
  Styles.backgroundColor (useFlowChartStyles (Some darkTheme)) = "#333"
  ∧ Styles.textColor (useFlowChartStyles (Some darkTheme)) = "#fff"
  ∧ Styles.primaryColor (useFlowChartStyles (Some darkTheme)) = "#007bff".
Proof.
  destruct (useFlowChartStyles_defaults (Some darkTheme)) as (Hb & Ht & Hp).
  split; [exact (Hb eq_refl) | split; [exact (Ht eq_refl) | exact (Hp eq_refl)]].
Defined.

(** C9, as stated, fails: with the primary colour absent, a dark and a
    light theme resolve to the same primary colour, so no pair of distinct
    base-selected defaults exists. *)
Lemma primaryColor_default_ignores_base :
  Styles.primaryColor (useFlowChartStyles (Some darkTheme)) = "#007bff"
  ∧ Styles.primaryColor (useFlowChartStyles (Some lightTheme)) = "#007bff"
  ∧ ¬ primary_default_follows_base.
Proof.
  split; [reflexivity | split; [reflexivity |]].
  intros (d & l & Hne & H).
  pose proof (H darkTheme eq_refl) as Hd.
  pose proof (H lightTheme eq_refl) as Hl.
  vm_compute in Hd, Hl. congruence.
Qed.

(** * Highlighting *)

Section Highlight.

Variables primaryColor nodeId : string.
Implicit Types (node : MeasuredNode.t) (nodes : list MeasuredNode.t).

Lemma addBorderToNode_lookup nodes i node :
  nodes !! i = Some node →
  addBorderToNode primaryColor nodeId nodes !! i
  = Some (MeasuredNode.with_style node
            (<["border" :=
                 if decide (MeasuredNode.id node = nodeId)
                 then JStr (highlightBorder primaryColor)
                 else JUndefined]>
               (default ∅ (MeasuredNode.style node)))).
Proof. intros Hi. unfold addBorderToNode. by rewrite list_lookup_fmap, Hi. Qed.

Lemma addBorderToNode_idemp nodes :
  addBorderToNode primaryColor nodeId (addBorderToNode primaryColor nodeId nodes)
  = addBorderToNode primaryColor nodeId nodes.
Proof.
  unfold addBorderToNode. rewrite <- list_fmap_compose.
  apply list_fmap_ext. intros i node _. simpl.
  unfold MeasuredNode.with_style; simpl. f_equal. f_equal.
  apply insert_insert_eq.
Qed.

End Highlight.

(** C4: after [addBorderToNode] with target X, a node whose id is not X
    has its border entry bound to [undefined], so it does not carry the
    themed border. *)
Theorem addBorderToNode_exclusive primaryColor X nodes node' :
  node' ∈ addBorderToNode primaryColor X nodes →
  MeasuredNode.id node' ≠ X →
  MeasuredNode.style node' ≫= (.!! "border") = Some JUndefined
  ∧ hasHighlightBorder primaryColor node' = false.
Proof.
  unfold addBorderToNode. intros Hin Hne.
  apply list_elem_of_fmap in Hin as (node & -> & _). simpl in Hne.
  assert (MeasuredNode.style
            (MeasuredNode.with_style node
               (<["border" := if decide (MeasuredNode.id node = X)
                              then JStr (highlightBorder primaryColor)
                              else JUndefined]>
                  (default ∅ (MeasuredNode.style node))))
          ≫= (.!! "border") = Some JUndefined) as Hb.
  { simpl. rewrite lookup_insert_eq. by rewrite decide_False. }
  split; [exact Hb |]. unfold hasHighlightBorder. by rewrite Hb.
Qed.

Lemma addBorderToNode_exclusive_witness :
  ∃ node',
    addBorderToNode "#007bff" "n1" sampleNodes !! 1%nat = Some node'
    ∧ MeasuredNode.id node' = "n2"
    ∧ MeasuredNode.style node' ≫= (.!! "border") = Some JUndefined
    ∧ hasHighlightBorder "#007bff" node' = false.
Proof.
  eexists. split; [reflexivity |]. split; [reflexivity |].
  apply (addBorderToNode_exclusive "#007bff" "n1" sampleNodes).
  - apply list_elem_of_In. right. left. reflexivity.
  - discriminate.
Defined.

(** C5: highlighting twice with the same target gives the same nodes as
    highlighting once, both for [addBorderToNode] itself and for the
    check-then-set of the border effect. *)
Theorem highlight_idempotent primaryColor :
  (∀ nodeId nodes,
     addBorderToNode primaryColor nodeId (addBorderToNode primaryColor nodeId nodes)
     = addBorderToNode primaryColor nodeId nodes)
  ∧ (∀ borderNodeId nodes,
       borderEffect borderNodeId primaryColor (borderEffect borderNodeId primaryColor nodes)
       = borderEffect borderNodeId primaryColor nodes).
Proof.
  split; [apply addBorderToNode_idemp |].
  intros [[|a nodeId]|] nodes; simpl; [done | | done].
  set (found := λ node : MeasuredNode.t, _).
  destruct (find found nodes) eqn:Hf.
  - by rewrite Hf.
  - destruct (find found (addBorderToNode _ _ nodes)); [done |].
    apply addBorderToNode_idemp.
Qed.

(** C10: [addBorderToNode] keeps the length and, at every index, every
    node field but [style]; the new style is an object that binds [border]
    (to the themed border for the target, to [undefined] for any other
    node) and agrees with the old style on every other key. *)
Theorem addBorderToNode_frame primaryColor X nodes :
  length (addBorderToNode primaryColor X nodes) = length nodes
  ∧ ∀ i node, nodes !! i = Some node →
      ∃ node' style',
        addBorderToNode primaryColor X nodes !! i = Some node'
        ∧ MeasuredNode.id node' = MeasuredNode.id node
        ∧ MeasuredNode.type node' = MeasuredNode.type node
        ∧ MeasuredNode.position node' = MeasuredNode.position node
        ∧ MeasuredNode.data node' = MeasuredNode.data node
        ∧ MeasuredNode.measured node' = MeasuredNode.measured node
        ∧ MeasuredNode.rest node' = MeasuredNode.rest node
        ∧ MeasuredNode.style node' = Some style'
        ∧ style' !! "border"
          = Some (if decide (MeasuredNode.id node = X)
                  then JStr (highlightBorder primaryColor) else JUndefined)
        ∧ ∀ k, k ≠ "border" →
            style' !! k = default ∅ (MeasuredNode.style node) !! k.
Proof.
  split; [apply length_fmap |]. intros i node Hi.
  eexists _, _. split; [by apply addBorderToNode_lookup |].
  simpl. repeat split.
  - apply lookup_insert_eq.
  - intros k Hk. by apply lookup_insert_ne.
Qed.

Lemma addBorderToNode_frame_witness :
  ∃ node' style',
    addBorderToNode "#007bff" "n1" sampleNodes !! 1%nat = Some node'
    ∧ MeasuredNode.rest node' = {[ "selected" := JBool true ]}
    ∧ MeasuredNode.style node' = Some style'
    ∧ style' !! "border" = Some JUndefined
    ∧ style' !! "color" = Some (JStr "red").
Proof.
  destruct (proj2 (addBorderToNode_frame "#007bff" "n1" sampleNodes) 1%nat
              (MeasuredNode.mk "n2" (Some "output") (XYPosition.mk 0 0) JNull None
                 (Some {[ "border" := JStr "2px solid #007bff"; "color" := JStr "red" ]})
                 {[ "selected" := JBool true ]}) eq_refl)
    as (node' & style' & Hi & _ & _ & _ & _ & _ & Hr & Hs & Hb & Hk).
  exists node', style'.
  split; [exact Hi |]. split; [exact Hr |]. split; [exact Hs |].
  split; [exact Hb |].
  rewrite (Hk "color"); [reflexivity | discriminate].
Defined.

(** The guard of the border effect: when the target already carries the
    themed border the node state is left as it is, whatever the other nodes
    carry. *)
Example borderEffect_guard :
  borderEffect (Some "n2") "#007bff" sampleNodes = sampleNodes.
Proof. reflexivity. Qed.

(** * The deferred fit-view call *)

Module FitViewFacts.
Import FitView.

Lemma Inv_init : Inv init.
Proof.
  split.
  - intros t Ht. by apply elem_of_nil in Ht.
  - intros t b Ht. by apply elem_of_nil in Ht.
Qed.

(** Once the cleanup has run, nothing is pending. *)
Lemma runCleanup_pending s : Inv s → pending (runCleanup s) = [].
Proof.
  intros [Hp _]. unfold runCleanup.
  destruct (cleanup s) as [c|] eqn:Hc; simpl.
  - destruct (filter (λ t', t' ≠ c) (pending s)) as [|t l] eqn:Hf; [done |].
    assert (t ∈ filter (λ t', t' ≠ c) (pending s)) as Ht by (rewrite Hf; left).
    apply list_elem_of_filter in Ht as [Hne Ht].
    destruct (Hp t Ht) as (_ & Hc' & _). congruence.
  - destruct (pending s) as [|t l] eqn:Hf; [done |].
    destruct (Hp t) as (_ & Hc' & _); [left | congruence].
Qed.

Lemma runCleanup_rest s :
  mounted (runCleanup s) = mounted s
  ∧ nextTimer (runCleanup s) = nextTimer s
  ∧ fitViewCalls (runCleanup s) = fitViewCalls s.
Proof. unfold runCleanup. by destruct (cleanup s). Qed.

(** Running the effect with nothing pending re-establishes the invariant. *)
Lemma Inv_runEffect s :
  mounted s = true → pending s = [] →
  (∀ t b, (t, b) ∈ fitViewCalls s → t < nextTimer s ∧ b = true) →
  Inv (runEffect s).
Proof.
  intros Hm Hp Hc. split; simpl.
  - rewrite Hp. intros t Ht. apply list_elem_of_singleton in Ht as ->.
    repeat split; [lia | done |].
    intros Hin. apply list_elem_of_fmap in Hin as ([t b] & Heq & Hin).
    simpl in Heq. subst t. apply Hc in Hin. lia.
  - intros t b Ht. destruct (Hc t b Ht). split; [lia | done].
Qed.

Lemma Inv_step e s : Inv s → Inv (step e s).
Proof.
  intros HI. pose proof HI as [Hp Hc]. destruct e; simpl.
  - destruct (mounted s) eqn:Hm; [done |].
    apply Inv_runEffect; simpl; [done | | done].
    destruct (pending s) as [|t l] eqn:Hf; [done |].
    destruct (Hp t) as (_ & _ & Hm' & _); [left | congruence].
  - destruct (mounted s) eqn:Hm; [| done].
    destruct (runCleanup_rest s) as (Hm' & Hn' & Hc').
    apply Inv_runEffect.
    + congruence.
    + by apply runCleanup_pending.
    + rewrite Hc', Hn'. exact Hc.
  - destruct (mounted s) eqn:Hm; [| done].
    destruct (runCleanup_rest s) as (Hm' & Hn' & Hc').
    split; simpl.
    + rewrite runCleanup_pending by done. intros t Ht. by apply elem_of_nil in Ht.
    + rewrite Hc', Hn'. exact Hc.
  - case_bool_decide as Ht; [| done]. split; simpl.
    + intros t' Ht'. apply list_elem_of_filter in Ht' as [Hne Ht'].
      destruct (Hp t Ht) as (_ & Hct & _).
      destruct (Hp t' Ht') as (_ & Hct' & _). congruence.
    + intros t' b Hin. apply elem_of_app in Hin as [Hin | Hin]; [by apply Hc |].
      apply list_elem_of_singleton in Hin. injection Hin as -> ->.
      destruct (Hp t Ht) as (Hlt & _ & Hm & _). done.
Qed.

Lemma Inv_run evs s : Inv s → Inv (run evs s).
Proof.
  revert s. induction evs as [|e evs IH]; intros s HI; simpl; [done |].
  apply IH. by apply Inv_step.
Qed.

Lemma cancelled_runEffect t s : cancelled t s → cancelled t (runEffect s).
Proof.
  intros (Hlt & Hp & Hc). repeat split; simpl; [lia | | done].
  intros Hin. apply elem_of_app in Hin as [Hin | Hin]; [done |].
  apply list_elem_of_singleton in Hin. lia.
Qed.

Lemma cancelled_runCleanup t s : cancelled t s → cancelled t (runCleanup s).
Proof.
  intros (Hlt & Hp & Hc). unfold runCleanup.
  destruct (cleanup s) as [c|]; [| done].
  repeat split; simpl; [done | | done].
  intros Hin. by apply list_elem_of_filter in Hin as [_ Hin].
Qed.

(** A cancelled timer stays cancelled whatever happens next. *)
Lemma cancelled_step t e s : cancelled t s → cancelled t (step e s).
Proof.
  intros Hc. destruct e; simpl.
  - destruct (mounted s); [done |].
    apply cancelled_runEffect. exact Hc.
  - destruct (mounted s); [| done].
    by apply cancelled_runEffect, cancelled_runCleanup.
  - destruct (mounted s); [| done].
    by apply (cancelled_runCleanup t s) in Hc.
  - case_bool_decide as Ht; [| done].
    destruct Hc as (Hlt & Hp & Hc). repeat split; simpl; [done | |].
    + intros Hin. by apply list_elem_of_filter in Hin as [_ Hin].
    + rewrite fmap_app. intros Hin.
      apply elem_of_app in Hin as [Hin | Hin]; [done |].
      apply list_elem_of_singleton in Hin. simpl in Hin. congruence.
Qed.

Lemma cancelled_run t evs s : cancelled t s → cancelled t (run evs s).
Proof.
  revert s. induction evs as [|e evs IH]; intros s Hc; simpl; [done |].
  apply IH. by apply cancelled_step.
Qed.

End FitViewFacts.

(** C8: take any state reached from the initial one in which the timer
    set by the effect is still pending.  If the component then unmounts, or
    renders with another [fitView], the timer is cleared, and whatever
    happens afterwards its callback never runs.  More generally no
    [fitView()] call is ever made while the component is unmounted. *)
Theorem fitView_cleared_never_runs evs1 evs2 e t :
  let s := FitView.run evs1 FitView.init in
  FitView.cleanup s = Some t →
  t ∈ FitView.pending s →
  e = FitView.Unmount ∨ e = FitView.FitViewChanged →
  (t ∉ FitView.pending (FitView.step e s))
  ∧ (t ∉ (FitView.fitViewCalls (FitView.run evs2 (FitView.step e s))).*1)
  ∧ ∀ t' b,
      (t', b) ∈ FitView.fitViewCalls (FitView.run evs2 (FitView.step e s)) →
      b = true.
Proof.
  intros s Hc Ht He.
  assert (FitView.Inv s) as HI by apply FitViewFacts.Inv_run, FitViewFacts.Inv_init.
  destruct (proj1 HI t Ht) as (Hlt & _ & Hm & Hnc).
  assert (FitView.cancelled t (FitView.step e s)) as Hcan.
  { destruct (FitViewFacts.runCleanup_rest s) as (Hm' & Hn' & Hc').
    pose proof (FitViewFacts.runCleanup_pending s HI) as Hp'.
    destruct He as [-> | ->]; simpl; rewrite Hm.
    - repeat split; simpl; [lia | | congruence].
      rewrite Hp'. apply not_elem_of_nil.
    - apply FitViewFacts.cancelled_runEffect.
      repeat split; [lia | | congruence].
      rewrite Hp'. apply not_elem_of_nil. }
  split; [apply Hcan |]. split.
  - by apply (FitViewFacts.cancelled_run t evs2) in Hcan as (_ & _ & Hcalls).
  - intros t' b Hin.
    assert (FitView.Inv (FitView.run evs2 (FitView.step e s))) as [_ HI2]
      by apply FitViewFacts.Inv_run, FitViewFacts.Inv_step, HI.
    by destruct (HI2 t' b Hin).
Qed.

Lemma fitView_cleared_never_runs_witness :
  (0%nat ∉ (FitView.fitViewCalls
              (FitView.run [FitView.Fire 0; FitView.Mount; FitView.Fire 0; FitView.Fire 1]
                 (FitView.step FitView.Unmount
                    (FitView.run [FitView.Mount] FitView.init)))).*1).
Proof.
  apply (fitView_cleared_never_runs [FitView.Mount]
           [FitView.Fire 0; FitView.Mount; FitView.Fire 0; FitView.Fire 1]
           FitView.Unmount 0%nat).
  - reflexivity.
  - left.
  - by left.
Defined.

(** * The view controller *)

Section ControllerFacts.

Variable strict : bool.
Variable layout : Dagre.Graph → option Dagre.Graph.

Lemma same_ref_refl {A : Type} (a : option (Arr A)) : same_ref a a = true.
Proof. destruct a; simpl; [by apply bool_decide_eq_true_2 | done]. Qed.

Lemma hooksAgree_commit args f l runs : hooksAgree (FlowChart.commit args f l runs).
Proof. by repeat split. Qed.

Lemma updateDeps_commit args f l runs :
  FlowChart.updateDepsChanged args (FlowChart.commit args f l runs) = false.
Proof.
  unfold FlowChart.updateDepsChanged, FlowChart.commit; simpl.
  by rewrite !same_ref_refl.
Qed.

Lemma hooksAgree_mount args f :
  FlowChart.mount strict layout args = Ok f → hooksAgree f.
Proof.
  unfold FlowChart.mount.
  destruct (getLayoutedElements _ _ _ _) as [l|]; [| done].
  destruct (fold_left _ _ _) as [ns next]. intros [= <-]. by repeat split.
Qed.

Lemma hooksAgree_pass args f f' :
  FlowChart.pass strict layout args f = Ok f' → hooksAgree f'.
Proof.
  unfold FlowChart.pass.
  destruct (FlowChart.renderLayout _ _ _ _) as [[l runs]|]; [| done].
  intros [= <-]. apply hooksAgree_commit.
Qed.

Lemma hooksAgree_renders f argss f' :
  hooksAgree f → renders strict layout f argss = Ok f' → hooksAgree f'.
Proof.
  revert f. induction argss as [|args argss IH]; intros f Hf; simpl.
  - by intros [= <-].
  - destruct (FlowChart.pass strict layout args f) as [f1|] eqn:Hu; [| done].
    apply IH. by eapply hooksAgree_pass.
Qed.

Lemma hooksAgree_session args argss f :
  session strict layout args argss = Ok f → hooksAgree f.
Proof.
  unfold session.
  destruct (FlowChart.mount strict layout args) as [f0|] eqn:Hm; [| done].
  apply hooksAgree_renders. by eapply hooksAgree_mount.
Qed.

(** With settled hooks and the props' arrays unchanged, rendering takes
    both memos from the cache. *)
Lemma renderLayout_cached args f :
  hooksAgree f → FlowChart.updateDepsChanged args f = false →
  FlowChart.nextInitialData args f = FlowChart.initialData f
  ∧ FlowChart.renderLayout strict layout args f
    = Ok (FlowChart.layoutedData f, FlowChart.layoutRuns f).
Proof.
  intros (Hd & Hn & He) Hch.
  unfold FlowChart.updateDepsChanged in Hch. apply negb_false_iff in Hch.
  assert (FlowChart.nextInitialData args f = FlowChart.initialData f) as Hi.
  { unfold FlowChart.nextInitialData. by rewrite Hd, Hch. }
  split; [done |]. unfold FlowChart.renderLayout. rewrite Hi.
  by rewrite !bool_decide_eq_true_2.
Qed.

(** When the layout returns on the sequences the render reads, rendering
    returns; it keeps the runs recorded so far and, for a node array that
    is new to the memos, records a run on the pushed sequences. *)
Lemma renderLayout_returns args f :
  layoutReturnsOn layout (FlowChart.layoutInputs args f) →
  ∃ l runs,
    FlowChart.renderLayout strict layout args f = Ok (l, runs)
    ∧ (∀ a, FlowChartArgs.nodes args = Some a → freshNodes a f = true →
         (elems a,
          elems (default (mkArr RefBuiltin initialEdges) (FlowChartArgs.edges args)))
         ∈ runs).
Proof.
  intros (g & Hl & Hk). unfold FlowChart.layoutInputs in Hl, Hk. simpl in Hl, Hk.
  destruct (getLayoutedElements_returns layout _ _ _ g Hl Hk) as (out & Hout & _).
  assert (∀ a, FlowChartArgs.nodes args = Some a → freshNodes a f = true →
            FlowChart.nextInitialData args f = FlowChart.makeInitialData args
            ∧ ident a ≠ ident (FlowChart.layoutedDataDeps f).1) as Hfresh.
  { intros a Ha Hf. unfold freshNodes in Hf. apply andb_prop in Hf as [Hf1 Hf2].
    apply negb_true_iff in Hf1, Hf2. apply bool_decide_eq_false in Hf2.
    split; [| done]. unfold FlowChart.nextInitialData. by rewrite Ha, Hf1. }
  unfold FlowChart.renderLayout.
  destruct (bool_decide (ident (FlowChart.initialNodesOf (FlowChart.nextInitialData args f))
                         = ident (FlowChart.layoutedDataDeps f).1)
            && bool_decide _) eqn:Hsame.
  - eexists _, _. split; [reflexivity |].
    intros a Ha Hf. exfalso. destruct (Hfresh a Ha Hf) as [Hi Hne].
    apply andb_prop in Hsame as [Hs _]. apply bool_decide_eq_true in Hs.
    apply Hne. rewrite <- Hs, Hi. unfold FlowChart.makeInitialData; simpl.
    by rewrite Ha.
  - rewrite Hout. eexists _, _. split; [reflexivity |].
    intros a Ha Hf. destruct (Hfresh a Ha Hf) as [-> _].
    unfold FlowChart.makeInitialData; simpl. rewrite Ha. simpl.
    apply elem_of_app. right. unfold FlowChart.twiceIf.
    destruct strict; left.
Qed.

(** The node state a commit leaves when the update effect runs. *)
Lemma commit_nodes_push args f l runs :
  FlowChart.updateDepsChanged args f = true →
  (FlowChart.nodes (FlowChart.commit args f l runs)
     = default (FlowChart.nodes f) (FlowChartArgs.nodes args)
   ∨ elems (FlowChart.nodes (FlowChart.commit args f l runs))
     = addBorderToNode
         (Styles.primaryColor (useFlowChartStyles (FlowChartArgs.theme args)))
         (default "" (FlowChartArgs.borderNodeId args))
         (elems (default (FlowChart.nodes f) (FlowChartArgs.nodes args))))
  ∧ ((FlowChartArgs.borderNodeId args = None
      ∨ FlowChartArgs.borderNodeId args = Some "") →
     FlowChart.nodes (FlowChart.commit args f l runs)
     = default (FlowChart.nodes f) (FlowChartArgs.nodes args)).
Proof.
  intros Hch. unfold FlowChart.commit. rewrite Hch.
  unfold FlowChart.updateActions, FlowChart.borderActions.
  split.
  - destruct (FlowChartArgs.nodes args), (FlowChart.borderDepsChanged args f);
      simpl; auto; destruct (borderEffectFires _ _ _); simpl; auto.
  - intros [-> | ->];
      by destruct (FlowChartArgs.nodes args), (FlowChart.borderDepsChanged args f).
Qed.

(** The node state a commit leaves when the update effect does not run. *)
Lemma commit_nodes_rerender args f l runs :
  FlowChart.updateDepsChanged args f = false →
  FlowChart.nodes (FlowChart.commit args f l runs)
  = if FlowChart.borderDepsChanged args f
       && borderEffectFires (FlowChartArgs.borderNodeId args)
            (Styles.primaryColor (useFlowChartStyles (FlowChartArgs.theme args)))
            (elems (FlowChart.nodes f))
    then mkArr (RefFresh (FlowChart.nextRef f))
           (addBorderToNode
              (Styles.primaryColor (useFlowChartStyles (FlowChartArgs.theme args)))
              (default "" (FlowChartArgs.borderNodeId args))
              (elems (FlowChart.nodes f)))
    else FlowChart.nodes f.
Proof.
  intros Hch. unfold FlowChart.commit. rewrite Hch.
  unfold FlowChart.borderActions.
  destruct (FlowChart.borderDepsChanged args f); simpl; [| done].
  by destruct (borderEffectFires _ _ _).
Qed.

Lemma afterPush_pass args base es runs f :
  afterPush args base es runs f →
  ∃ f', FlowChart.pass strict layout args f = Ok f' ∧ afterPush args base es runs f'.
Proof.
  intros (Hch & Hag & He & Hn & Hin & Hr).
  destruct (renderLayout_cached args f Hag Hch) as [_ Hrl].
  unfold FlowChart.pass. rewrite Hrl. eexists. split; [reflexivity |].
  split; [apply updateDeps_commit |]. split; [apply hooksAgree_commit |].
  rewrite (commit_nodes_rerender args f _ _ Hch).
  split; [unfold FlowChart.commit; simpl; by rewrite Hch |].
  split; [| split; [| done]].
  - destruct (_ && _); simpl; [right | done].
    destruct Hn as [-> | ->]; [done | apply addBorderToNode_idemp].
  - intros Hoff. rewrite <- (Hin Hoff).
    by destruct Hoff as [-> | ->]; rewrite andb_false_r.
Qed.

Lemma afterPush_renders args base es runs f k :
  afterPush args base es runs f →
  ∃ f', renders strict layout f (replicate k args) = Ok f'
        ∧ afterPush args base es runs f'.
Proof.
  revert f. induction k as [|k IH]; intros f Hf; simpl.
  - by exists f.
  - destruct (afterPush_pass args base es runs f Hf) as (f1 & -> & Hf1).
    by apply IH.
Qed.

End ControllerFacts.

Example mount_default : FlowChart.mount false stackLayout noArgs = Ok defaultFiber.
Proof. vm_compute. reflexivity. Qed.

(** C6, as amended: take a render whose [nodes] or [edges] prop is another
    object, on whose layout input the layout returns.  After its commit,
    and after any number of re-renders with the same props, the edge state
    is the host's edge array and the node state is the host's node array
    (an absent one leaves its state as it was): the very object when no
    [borderNodeId] is set, and otherwise either its elements or its
    elements with the border entries rewritten by [addBorderToNode]; no
    layout result reaches the state.  The memoized layout itself does run
    again, on the pushed sequences, when the node array is an object the
    memos have not seen. *)
Theorem push_replaces_state (strict : bool)
    (layout : Dagre.Graph → option Dagre.Graph) args f k :
  FlowChart.updateDepsChanged args f = true →
  layoutReturnsOn layout (FlowChart.layoutInputs args f) →
  ∃ f',
    renders strict layout f (replicate (S k) args) = Ok f'
    ∧ FlowChart.edges f' = default (FlowChart.edges f) (FlowChartArgs.edges args)
    ∧ (elems (FlowChart.nodes f')
         = elems (default (FlowChart.nodes f) (FlowChartArgs.nodes args))
       ∨ elems (FlowChart.nodes f')
         = addBorderToNode
             (Styles.primaryColor (useFlowChartStyles (FlowChartArgs.theme args)))
             (default "" (FlowChartArgs.borderNodeId args))
             (elems (default (FlowChart.nodes f) (FlowChartArgs.nodes args))))
    ∧ ((FlowChartArgs.borderNodeId args = None
        ∨ FlowChartArgs.borderNodeId args = Some "") →
       FlowChart.nodes f' = default (FlowChart.nodes f) (FlowChartArgs.nodes args))
    ∧ ∀ a, FlowChartArgs.nodes args = Some a → freshNodes a f = true →
        (elems a,
         elems (default (mkArr RefBuiltin initialEdges) (FlowChartArgs.edges args)))
        ∈ FlowChart.layoutRuns f'.
Proof.
  intros Hch Hret.
  destruct (renderLayout_returns strict layout args f Hret) as (l & runs & Hrl & Hruns).
  destruct (commit_nodes_push args f l runs Hch) as [Hn Hoff].
  destruct (afterPush_renders strict layout args
              (default (FlowChart.nodes f) (FlowChartArgs.nodes args))
              (default (FlowChart.edges f) (FlowChartArgs.edges args))
              runs (FlowChart.commit args f l runs) k)
    as (f' & Hf' & (_ & _ & He' & Hn' & Hoff' & Hr')).
  { split; [apply updateDeps_commit |]. split; [apply hooksAgree_commit |].
    split; [unfold FlowChart.commit; simpl; by rewrite Hch |].
    split; [destruct Hn as [-> | ->]; auto | done]. }
  exists f'. split.
  - change (replicate (S k) args) with (args :: replicate k args). simpl.
    unfold FlowChart.pass. by rewrite Hrl.
  - split; [done |]. split; [done |]. split; [done |]. by rewrite Hr'.
Qed.

Lemma push_replaces_state_witness :
  ∃ f',
    renders false stackLayout defaultFiber (replicate 2 sampleArgs) = Ok f'
    ∧ FlowChart.edges f' = mkArr (RefHost 2) sampleEdges
    ∧ FlowChart.nodes f' = mkArr (RefHost 1) sampleNodes
    ∧ (sampleNodes, sampleEdges) ∈ FlowChart.layoutRuns f'.
Proof.
  destruct (push_replaces_state false stackLayout sampleArgs defaultFiber 1)
    as (f' & Hf' & He & _ & Hn & Hr).
  - reflexivity.
  - eexists. split; reflexivity.
  - exists f'. split; [exact Hf' |]. split; [exact He |].
    split; [exact (Hn (or_introl eq_refl)) |].
    exact (Hr _ eq_refl eq_refl).
Defined.

(** C6, as stated, fails: mounted without host data and then handed the
    sample graph, the component takes the host's nodes as its state and
    also runs the layout once more, on exactly those nodes and edges. *)
Lemma update_reruns_layout :
  ∃ f',
    FlowChart.pass false stackLayout sampleArgs defaultFiber = Ok f'
    ∧ elems (FlowChart.nodes f') = sampleNodes
    ∧ FlowChart.layoutRuns defaultFiber = [(initialNodes, initialEdges)]
    ∧ FlowChart.layoutRuns f'
      = [(initialNodes, initialEdges); (sampleNodes, sampleEdges)]
    ∧ FlowChart.layoutRuns f' ≠ FlowChart.layoutRuns defaultFiber.
Proof.
  eexists. split; [vm_compute; reflexivity |].
  repeat split. discriminate.
Qed.

(** * More on the layout adapter *)

Local Open Scope list_scope.

Lemma map_result_inv {A B : Type} (f : A → result B) (l : list A) (bs : list B) :
  map_result f l = Ok bs → Forall2 (λ a b, f a = Ok b) l bs.
Proof.
  revert bs. induction l as [|a l IH]; intros bs; simpl.
  - intros [= <-]. constructor.
  - destruct (f a) as [b|e] eqn:Hb; [| done].
    destruct (map_result f l) as [bs'|e]; [| done].
    intros [= <-]. constructor; [done | by apply IH].
Qed.

Lemma map_result_of_Forall2 {A B : Type} (f : A → result B) (l : list A) (bs : list B) :
  Forall2 (λ a b, f a = Ok b) l bs → map_result f l = Ok bs.
Proof.
  induction 1 as [|a b l bs Hab _ IH]; simpl; [done |]. by rewrite Hab, IH.
Qed.

Lemma map_result_throw {A B : Type} (f : A → result B) (l : list A) e :
  (∀ a e', a ∈ l → f a = Throw e' → e' = e) →
  (∃ a, a ∈ l ∧ f a = Throw e) →
  map_result f l = Throw e.
Proof.
  induction l as [|a l IH]; intros Honly (a0 & Hin & Ha0); simpl.
  - by apply elem_of_nil in Hin.
  - destruct (f a) as [b|e'] eqn:Hb.
    + rewrite IH; [done | |].
      * intros a' e' Ha'. apply Honly. by right.
      * apply elem_of_cons in Hin as [-> | Hin]; [congruence |]. by exists a0.
    + f_equal. apply (Honly a); [by left | done].
Qed.

Lemma fold_left_through {A B C : Type} (f : C → B → C) (h : A → B) (l : list A) c :
  fold_left (λ c a, f c (h a)) l c = fold_left f (map h l) c.
Proof. revert c. induction l as [|a l IH]; intros c; simpl; [done | apply IH]. Qed.

(** The graph is a function of the layout keys, the endpoints and the
    direction. *)
Lemma buildGraph_via_keys nodes edges options :
  buildGraph nodes edges options
  = fold_left (λ g vw, Dagre.setEdge vw.1 vw.2 g) (map endpoints edges)
      (fold_left (λ g k, Dagre.setNode k.1.1 (Dagre.mkLabel k.1.2 k.2 None None) g)
         (map layoutKey nodes)
         (Dagre.setGraph (direction options) Dagre.empty)).
Proof.
  unfold buildGraph.
  rewrite <- (fold_left_through (λ g vw, Dagre.setEdge vw.1 vw.2 g) endpoints).
  by rewrite <- (fold_left_through
    (λ g k, Dagre.setNode k.1.1 (Dagre.mkLabel k.1.2 k.2 None None) g) layoutKey).
Qed.

Lemma placeNode_layoutKey g node node' :
  placeNode g node = Ok node' → layoutKey node' = layoutKey node.
Proof.
  unfold placeNode. destruct (Dagre.node g (MeasuredNode.id node)); [| done].
  by intros [= <-].
Qed.

Lemma placeNode_again g node node' :
  placeNode g node = Ok node' → placeNode g node' = Ok node'.
Proof.
  unfold placeNode.
  destruct (Dagre.node g (MeasuredNode.id node)) as [c|] eqn:Hc; [| done].
  intros [= <-]. simpl. by rewrite Hc.
Qed.

Lemma placeNode_all_layoutKey g nodes out :
  Forall2 (λ node node', placeNode g node = Ok node') nodes out →
  map layoutKey out = map layoutKey nodes.
Proof.
  induction 1 as [|a b l bs Hab _ IH]; simpl; [done |].
  by rewrite IH, (placeNode_layoutKey _ _ _ Hab).
Qed.

Lemma placeNode_all_again g nodes out :
  Forall2 (λ node node', placeNode g node = Ok node') nodes out →
  Forall2 (λ node node', placeNode g node = Ok node') out out.
Proof.
  induction 1 as [|a b l bs Hab _ IH]; constructor; [| done].
  by eapply placeNode_again.
Qed.

(** X1: two inputs with the same direction, the same ids and effective
    sizes in the same order, and the same edge endpoints in the same order
    give the same graph; positions, payloads and styles do not reach the
    layout. *)
Theorem buildGraph_reads_keys_only nodes nodes' edges edges' options options' :
  map layoutKey nodes = map layoutKey nodes' →
  map endpoints edges = map endpoints edges' →
  direction options = direction options' →
  buildGraph nodes edges options = buildGraph nodes' edges' options'.
Proof.
  intros Hn He Hd. rewrite !buildGraph_via_keys. by rewrite Hn, He, Hd.
Qed.

Lemma buildGraph_reads_keys_only_witness :
  buildGraph sampleNodes sampleEdges tbOptions
  = buildGraph
      (zip_with MeasuredNode.with_position sampleNodes
         [XYPosition.mk 0 0; XYPosition.mk 0 90])
      [Edge.mk "e" "n1" "n2" None (Some true) ∅] tbOptions.
Proof.
  apply buildGraph_reads_keys_only; reflexivity.
Defined.

(** X2: laying out the adapter's own output again, with the same layout,
    returns that output unchanged. *)
Theorem getLayoutedElements_relayout
    (layout : Dagre.Graph → option Dagre.Graph) nodes edges options r :
  getLayoutedElements layout nodes edges options = Ok r →
  getLayoutedElements layout (Layouted.nodes r) (Layouted.edges r) options = Ok r.
Proof.
  unfold getLayoutedElements.
  destruct (layout (buildGraph nodes edges options)) as [g|] eqn:Hl; [| done].
  destruct (map_result (placeNode g) nodes) as [out|] eqn:Hout; [| done].
  intros [= <-]. simpl.
  apply map_result_inv in Hout.
  pose proof (placeNode_all_layoutKey _ _ _ Hout) as Hk.
  rewrite !buildGraph_via_keys, Hk, <- !buildGraph_via_keys, Hl.
  rewrite (map_result_of_Forall2 (placeNode g) out out); [done |].
  by eapply placeNode_all_again.
Qed.

Lemma getLayoutedElements_relayout_witness :
  ∃ r,
    getLayoutedElements stackLayout sampleNodes sampleEdges tbOptions = Ok r
    ∧ getLayoutedElements stackLayout (Layouted.nodes r) (Layouted.edges r) tbOptions
      = Ok r.
Proof.
  eexists. split; [vm_compute; reflexivity |].
  apply (getLayoutedElements_relayout stackLayout sampleNodes sampleEdges tbOptions).
  vm_compute. reflexivity.
Defined.

(** X3: once the layout has returned, the adapter returns if every input
    node has a label in the result, and throws a [TypeError] if some input
    node has none; with no input nodes it returns the empty sequence. *)
Theorem getLayoutedElements_outcome
    (layout : Dagre.Graph → option Dagre.Graph) nodes edges options g :
  layout (buildGraph nodes edges options) = Some g →
  ((∀ node, node ∈ nodes → is_Some (Dagre.node g (MeasuredNode.id node))) →
     ∃ out, getLayoutedElements layout nodes edges options
            = Ok (Layouted.mk out edges)
            ∧ length out = length nodes)
  ∧ ((∃ node, node ∈ nodes ∧ Dagre.node g (MeasuredNode.id node) = None) →
       getLayoutedElements layout nodes edges options = Throw TypeError).
Proof.
  intros Hl. unfold getLayoutedElements. rewrite Hl. split.
  - intros Hall.
    destruct (map_result_ok (placeNode g) nodes) as (out & Hout & HF).
    + intros node Hin. unfold placeNode.
      destruct (Hall node Hin) as [c ->]. by eexists.
    + exists out. rewrite Hout. split; [done |]. symmetry. by eapply Forall2_length.
  - intros (node & Hin & Hnone).
    rewrite (map_result_throw (placeNode g) nodes TypeError); [done | |].
    + intros a e' _. unfold placeNode.
      destruct (Dagre.node g (MeasuredNode.id a)); [done | by intros [= <-]].
    + exists node. split; [done |]. unfold placeNode. by rewrite Hnone.
Qed.

Lemma getLayoutedElements_outcome_witness :
  getLayoutedElements (λ g, Some Dagre.empty) initialNodes initialEdges tbOptions
  = Throw TypeError.
Proof.
  apply (getLayoutedElements_outcome (λ g, Some Dagre.empty) initialNodes
           initialEdges tbOptions Dagre.empty eq_refl).
  eexists. split; [left | reflexivity].
Defined.

(** ** The shape of the built graph *)

Section GraphShape.
Import DagreFacts.

Implicit Types (g : Dagre.Graph) (v w : string).

Lemma edges_setEdge v w g :
  Dagre.edges (Dagre.setEdge v w g)
  = if bool_decide ((v, w) ∈ Dagre.edges g) then Dagre.edges g
    else Dagre.edges g ++ [(v, w)].
Proof.
  unfold Dagre.setEdge, Dagre.hasEdge. case_bool_decide; [done |].
  simpl. by rewrite !edges_ensureNode.
Qed.

Lemma edges_addEdges (es : list Edge.t) g :
  NoDup (Dagre.edges g) →
  NoDup (Dagre.edges
           (fold_left (λ g edge, Dagre.setEdge (Edge.source edge) (Edge.target edge) g) es g))
  ∧ ∀ vw,
      vw ∈ Dagre.edges
             (fold_left (λ g edge, Dagre.setEdge (Edge.source edge) (Edge.target edge) g) es g)
      ↔ vw ∈ Dagre.edges g ∨ vw ∈ endpoints <$> es.
Proof.
  revert g. induction es as [|e es IH]; intros g Hnd; simpl.
  - split; [done |]. intros vw. split; [by left |].
    intros [H | H]; [done | by apply elem_of_nil in H].
  - destruct (IH (Dagre.setEdge (Edge.source e) (Edge.target e) g)) as [Hnd' Hin'].
    { rewrite edges_setEdge. case_bool_decide as He; [done |].
      apply NoDup_app. split; [done |]. split; [| apply NoDup_singleton].
      intros x Hx Hx'. by apply list_elem_of_singleton in Hx' as ->. }
    split; [done |]. intros vw. rewrite Hin', edges_setEdge, elem_of_cons.
    unfold endpoints at 2.
    case_bool_decide as He.
    + split; [intros [H | H]; [by left | by right; right] |].
      intros [H | [-> | H]]; [by left | by left | by right].
    + rewrite elem_of_app, list_elem_of_singleton. tauto.
Qed.

Lemma node_addNodes (ns : list MeasuredNode.t) g v :
  Dagre.node
    (fold_left (λ g node, Dagre.setNode (MeasuredNode.id node) (graphLabel node) g) ns g) v
  = match last (filter (λ node, MeasuredNode.id node = v) ns) with
    | Some node => Some (graphLabel node)
    | None => Dagre.node g v
    end.
Proof.
  revert g. induction ns as [|n ns IH]; intros g; simpl; [done |].
  rewrite IH. destruct (decide (MeasuredNode.id n = v)) as [<-|Hne].
  - rewrite filter_cons_True by done. rewrite last_cons.
    destruct (last (filter _ ns)); [done |]. apply node_setNode_eq.
  - rewrite filter_cons_False by done.
    destruct (last (filter _ ns)); [done |]. by apply node_setNode_ne.
Qed.

End GraphShape.

(** X5: the graph holds each pair (source, target) of the input edges
    exactly once, and nothing else: parallel input edges collapse into one
    graph edge. *)
Theorem buildGraph_edges nodes edges options :
  NoDup (Dagre.edges (buildGraph nodes edges options))
  ∧ ∀ v w,
      (v, w) ∈ Dagre.edges (buildGraph nodes edges options)
      ↔ ∃ e, e ∈ edges ∧ Edge.source e = v ∧ Edge.target e = w.
Proof.
  unfold buildGraph. set (g0 := fold_left _ nodes _).
  assert (Dagre.edges g0 = []) as H0 by (unfold g0; by rewrite addNodes_edges).
  destruct (edges_addEdges edges g0) as [Hnd Hin].
  { rewrite H0. apply NoDup_nil_2. }
  split; [done |]. intros v w. rewrite Hin, H0, list_elem_of_fmap.
  split.
  - intros [H | (e & Heq & He)]; [by apply elem_of_nil in H |].
    exists e. unfold endpoints in Heq. by injection Heq as -> ->.
  - intros (e & He & <- & <-). right. by exists e.
Qed.

(** X6: the label the layout finds under an id is the one built from the
    last input node with that id; an id no input node has, such as the far
    end of a dangling edge, has no label. *)
Theorem buildGraph_label_last_wins nodes edges options v :
  Dagre.node (buildGraph nodes edges options) v
  = graphLabel <$> last (filter (λ node, MeasuredNode.id node = v) nodes).
Proof.
  unfold buildGraph. rewrite addEdges_node.
  change (λ g node, Dagre.setNode (MeasuredNode.id node)
            (Dagre.mkLabel (nodeWidth node) (nodeHeight node) None None) g)
    with (λ g node, Dagre.setNode (MeasuredNode.id node) (graphLabel node) g).
  rewrite node_addNodes. by destruct (last _).
Qed.

(** * More on theme resolution *)

Lemma or_default_nonempty a d : d ≠ "" → or_default a d ≠ "".
Proof. intros Hd. by destruct a as [[|c s]|]. Qed.

(** X7: whatever the theme, also an absent one or one with empty strings,
    no resolved colour is the empty string. *)
Theorem useFlowChartStyles_nonempty (theme : option Theme.t) :
  Styles.backgroundColor (useFlowChartStyles theme) ≠ ""
  ∧ Styles.textColor (useFlowChartStyles theme) ≠ ""
  ∧ Styles.primaryColor (useFlowChartStyles theme) ≠ "".
Proof.
  unfold useFlowChartStyles; cbn [Styles.backgroundColor Styles.textColor Styles.primaryColor].
  repeat split; apply or_default_nonempty; by destruct (isDark theme).
Qed.

(** X8: resolution is idempotent: a theme that spells out the resolved
    colours resolves to the same style, whatever its base. *)
Theorem useFlowChartStyles_fixpoint (theme : option Theme.t) (base : option string) :
  useFlowChartStyles (Some (themeOfStyles base (useFlowChartStyles theme)))
  = useFlowChartStyles theme.
Proof.
  unfold useFlowChartStyles, themeOfStyles; simpl.
  f_equal.
  - destruct (isDark theme);
      by destruct (theme ≫= Theme.secondaryBackgroundColor) as [[|c s]|],
                  (isDark (Some _)).
  - destruct (isDark theme);
      by destruct (theme ≫= Theme.textColor) as [[|c s]|], (isDark (Some _)).
  - by destruct (theme ≫= Theme.primaryColor) as [[|c s]|].
Qed.

(** * More on highlighting *)

Section HighlightMore.

Implicit Types (node : MeasuredNode.t) (nodes : list MeasuredNode.t).

Lemma borderEffect_fires borderNodeId p nodes :
  borderEffect borderNodeId p nodes
  = if borderEffectFires borderNodeId p nodes
    then addBorderToNode p (default "" borderNodeId) nodes
    else nodes.
Proof.
  destruct borderNodeId as [[|c X]|]; simpl; [done | | done].
  by destruct (find _ nodes).
Qed.

Lemma hasHighlightBorder_added p X node :
  hasHighlightBorder p
    (MeasuredNode.with_style node
       (<["border" := if decide (MeasuredNode.id node = X)
                      then JStr (highlightBorder p) else JUndefined]>
          (default ∅ (MeasuredNode.style node))))
  = bool_decide (MeasuredNode.id node = X).
Proof.
  unfold hasHighlightBorder; simpl. rewrite lookup_insert_eq.
  destruct (decide (MeasuredNode.id node = X)) as [He|Hne]; simpl.
  - rewrite !bool_decide_eq_true_2; done.
  - by rewrite bool_decide_eq_false_2.
Qed.

Lemma find_absent_id p X nodes :
  (∀ node, node ∈ nodes → MeasuredNode.id node ≠ X) →
  find (λ node, bool_decide (MeasuredNode.id node = X) && hasHighlightBorder p node) nodes
  = None.
Proof.
  intros Hall. induction nodes as [|n nodes IH]; simpl; [done |].
  rewrite bool_decide_eq_false_2 by (apply Hall; left). simpl.
  apply IH. intros node Hin. apply Hall. by right.
Qed.

Lemma addBorderToNode_ids p X nodes :
  MeasuredNode.id <$> addBorderToNode p X nodes = MeasuredNode.id <$> nodes.
Proof.
  unfold addBorderToNode. rewrite <- list_fmap_compose. by apply list_fmap_ext.
Qed.

End HighlightMore.

(** X9: after [addBorderToNode] with target X, a node carries the themed
    border if and only if its id is X (every node with that id, should
    several share it). *)
Theorem addBorderToNode_marks_exactly_target p X nodes node' :
  node' ∈ addBorderToNode p X nodes →
  hasHighlightBorder p node' = bool_decide (MeasuredNode.id node' = X).
Proof.
  unfold addBorderToNode. intros Hin.
  apply list_elem_of_fmap in Hin as (node & -> & _).
  by rewrite hasHighlightBorder_added.
Qed.

Lemma addBorderToNode_marks_exactly_target_witness :
  ∃ node',
    addBorderToNode "#007bff" "n1" sampleNodes !! 0%nat = Some node'
    ∧ hasHighlightBorder "#007bff" node' = true.
Proof.
  eexists. split; [reflexivity |].
  rewrite (addBorderToNode_marks_exactly_target "#007bff" "n1" sampleNodes).
  - reflexivity.
  - apply list_elem_of_In. left. reflexivity.
Defined.

(** X10: the last highlight wins: highlighting X and then Y, in whatever
    colours, gives the same nodes as highlighting Y alone. *)
Theorem addBorderToNode_last_wins p q X Y nodes :
  addBorderToNode q Y (addBorderToNode p X nodes) = addBorderToNode q Y nodes.
Proof.
  unfold addBorderToNode. rewrite <- list_fmap_compose.
  apply list_fmap_ext. intros i node _. simpl.
  unfold MeasuredNode.with_style; simpl. f_equal. f_equal.
  apply insert_insert_eq.
Qed.

(** X11: when some node has the requested id, one run of the border
    effect leaves a node with that id carrying the themed border, and the
    effect's guard then holds: a further run does not call
    [addBorderToNode]. *)
Theorem borderEffect_settles p X nodes :
  X ≠ "" →
  (∃ node, node ∈ nodes ∧ MeasuredNode.id node = X) →
  (∃ node', node' ∈ borderEffect (Some X) p nodes
            ∧ MeasuredNode.id node' = X
            ∧ hasHighlightBorder p node' = true)
  ∧ borderEffectFires (Some X) p (borderEffect (Some X) p nodes) = false.
Proof.
  intros HX (node & Hin & Hid).
  assert (∃ node', node' ∈ borderEffect (Some X) p nodes
                   ∧ MeasuredNode.id node' = X
                   ∧ hasHighlightBorder p node' = true) as Hex.
  { destruct X as [|c X]; [done |]. simpl.
    destruct (find _ nodes) as [n|] eqn:Hf.
    - apply find_some in Hf as [Hn Hp]. apply andb_prop in Hp as [Hi Hh].
      apply bool_decide_eq_true in Hi. exists n.
      split; [by apply list_elem_of_In | done].
    - eexists. split.
      + unfold addBorderToNode. apply list_elem_of_fmap. eexists. split; [reflexivity | exact Hin].
      + split; [exact Hid |]. rewrite hasHighlightBorder_added.
        by apply bool_decide_eq_true_2. }
  split; [exact Hex |].
  destruct Hex as (node' & Hin' & Hid' & Hh').
  destruct X as [|c X]; [done |]. cbn [borderEffectFires].
  destruct (find _ (borderEffect _ p nodes)) eqn:Hf; [done |].
  apply list_elem_of_In in Hin'. apply (find_none _ _ Hf) in Hin'.
  rewrite Hid', Hh' in Hin'. by rewrite bool_decide_eq_true_2 in Hin'.
Qed.

Lemma borderEffect_settles_witness :
  (∃ node', node' ∈ borderEffect (Some "n1") "#007bff" sampleNodes
            ∧ MeasuredNode.id node' = "n1"
            ∧ hasHighlightBorder "#007bff" node' = true)
  ∧ borderEffectFires (Some "n1") "#007bff"
      (borderEffect (Some "n1") "#007bff" sampleNodes) = false.
Proof.
  apply borderEffect_settles; [discriminate |].
  eexists. split; [left | reflexivity].
Defined.

(** X12: when no node has the requested (non-empty) id, the guard of the
    border effect never holds: every run calls [addBorderToNode] again, each
    time producing the same nodes, all with [border] bound to [undefined]. *)
Theorem borderEffect_never_settles p X nodes n :
  X ≠ "" →
  (∀ node, node ∈ nodes → MeasuredNode.id node ≠ X) →
  borderEffectFires (Some X) p (Nat.iter n (borderEffect (Some X) p) nodes) = true
  ∧ Nat.iter (S n) (borderEffect (Some X) p) nodes = addBorderToNode p X nodes.
Proof.
  intros HX Hall.
  assert (∀ ns, (∀ node, node ∈ ns → MeasuredNode.id node ≠ X) →
            borderEffectFires (Some X) p ns = true
            ∧ borderEffect (Some X) p ns = addBorderToNode p X ns) as Hstep.
  { intros ns Hns. destruct X as [|c X]; [done |]. simpl.
    by rewrite (find_absent_id p _ ns Hns). }
  assert (∀ ns, (∀ node, node ∈ ns → MeasuredNode.id node ≠ X) →
            ∀ node, node ∈ addBorderToNode p X ns → MeasuredNode.id node ≠ X) as Hkeep.
  { intros ns Hns node Hin. unfold addBorderToNode in Hin.
    apply list_elem_of_fmap in Hin as (node0 & -> & Hin0). simpl. by apply Hns. }
  induction n as [|n IH].
  - simpl. destruct (Hstep nodes Hall) as [Hf He]. done.
  - destruct IH as [_ IH]. rewrite IH.
    destruct (Hstep _ (Hkeep nodes Hall)) as [Hf He].
    split; [exact Hf |].
    change (Nat.iter (S (S n)) (borderEffect (Some X) p) nodes)
      with (borderEffect (Some X) p (Nat.iter (S n) (borderEffect (Some X) p) nodes)).
    rewrite IH, He. apply addBorderToNode_idemp.
Qed.

Lemma borderEffect_never_settles_witness :
  borderEffectFires (Some "zz") "#007bff"
    (Nat.iter 3 (borderEffect (Some "zz") "#007bff") sampleNodes) = true
  ∧ Nat.iter 4 (borderEffect (Some "zz") "#007bff") sampleNodes
    = addBorderToNode "#007bff" "zz" sampleNodes.
Proof.
  apply (borderEffect_never_settles "#007bff" "zz" sampleNodes 3); [discriminate |].
  intros node Hin. apply list_elem_of_In in Hin.
  destruct Hin as [<- | [<- | []]]; discriminate.
Defined.

(** * More on the view controller *)

Example session_sample :
  session false stackLayout noArgs [sampleArgs; sampleArgs] = Ok sampleFiber.
Proof. vm_compute. reflexivity. Qed.

(** X13: when the layout returns on the mounted graph, mounting lays out
    the host's sequences or else the built-in ones, but the first commit
    writes host-supplied nodes and edges into the state as they came, so
    the layouted positions stay in the state only when the host supplied no
    nodes; and when a [borderNodeId] is set whose node does not yet carry
    the themed border, the border entries of that state are rewritten by
    [addBorderToNode].  Every recorded layout run is on the mounted
    sequences.  This holds with and without the doubled calls of a
    development build. *)
Theorem mount_state (strict : bool) (layout : Dagre.Graph → option Dagre.Graph) args :
  let ns := elems (default (mkArr RefBuiltin initialNodes) (FlowChartArgs.nodes args)) in
  let es := elems (default (mkArr RefBuiltin initialEdges) (FlowChartArgs.edges args)) in
  let p := Styles.primaryColor (useFlowChartStyles (FlowChartArgs.theme args)) in
  layoutReturnsOn layout (ns, es) →
  ∃ f out,
    FlowChart.mount strict layout args = Ok f
    ∧ getLayoutedElements layout ns es tbOptions = Ok (Layouted.mk out es)
    ∧ FlowChart.edges f
      = default (mkArr RefBuiltin initialEdges) (FlowChartArgs.edges args)
    ∧ elems (FlowChart.nodes f)
      = (if borderEffectFires (FlowChartArgs.borderNodeId args) p out
         then addBorderToNode p (default "" (FlowChartArgs.borderNodeId args))
         else λ nodes, nodes)
          (match FlowChartArgs.nodes args with Some a => elems a | None => out end)
    ∧ (ns, es) ∈ FlowChart.layoutRuns f
    ∧ ∀ run, run ∈ FlowChart.layoutRuns f → run = (ns, es).
Proof.
  intros ns es p (g & Hl & Hk). simpl in Hl, Hk.
  destruct (getLayoutedElements_returns layout ns es tbOptions g Hl Hk)
    as (out & Hout & _).
  unfold FlowChart.mount, FlowChart.makeInitialData.
  cbn [FlowChart.initialNodesOf FlowChart.initialEdgesOf].
  fold ns es p. rewrite Hout. cbn [Layouted.nodes Layouted.edges elems].
  unfold FlowChart.updateActions, FlowChart.borderActions, FlowChart.updateEdges.
  destruct (fold_left _ _ _) as [nodes1 next] eqn:Hfold.
  eexists _, out. split; [reflexivity |]. split; [reflexivity |].
  cbn [FlowChart.edges FlowChart.nodes FlowChart.layoutRuns]. split.
  { unfold es. by destruct (FlowChartArgs.edges args). }
  split.
  { change nodes1 with (nodes1, next).1. rewrite <- Hfold. clear Hfold.
    destruct strict, (FlowChartArgs.nodes args) as [a|],
      (borderEffectFires (FlowChartArgs.borderNodeId args) p out);
      simpl; try done; apply addBorderToNode_idemp. }
  unfold FlowChart.twiceIf. destruct strict; split; try by left.
  - intros run Hr. apply elem_of_cons in Hr as [-> | Hr]; [done |].
    by apply list_elem_of_singleton in Hr.
  - intros run Hr. by apply list_elem_of_singleton in Hr.
Qed.

Lemma mount_state_witness :
  ∃ f out,
    FlowChart.mount true stackLayout sampleBorderArgs = Ok f
    ∧ getLayoutedElements stackLayout sampleNodes sampleEdges tbOptions
      = Ok (Layouted.mk out sampleEdges)
    ∧ FlowChart.edges f = mkArr (RefHost 2) sampleEdges
    ∧ elems (FlowChart.nodes f) = addBorderToNode "#007bff" "n1" sampleNodes.
Proof.
  destruct (mount_state true stackLayout sampleBorderArgs)
    as (f & out & Hm & Hout & He & Hn & _).
  - eexists. split; reflexivity.
  - exists f, out. split; [exact Hm |]. split; [exact Hout |]. split; [exact He |].
    rewrite Hn. simpl in Hout. vm_compute in Hout. injection Hout as <-.
    vm_compute. reflexivity.
Defined.

(** X14: in a component that was mounted and rendered any number of
    times, a render whose [nodes] and [edges] props are the objects of the
    previous render returns without running the layout and leaves the edge
    state and the memoized layout alone; the node state changes only
    through the border effect: it becomes [borderEffect] of the current
    nodes when one of that effect's dependencies changed (the node state,
    [borderNodeId] or the primary colour), and stays the same object
    otherwise. *)
Theorem render_same_props (strict : bool)
    (layout : Dagre.Graph → option Dagre.Graph) args0 argss f args :
  session strict layout args0 argss = Ok f →
  FlowChart.updateDepsChanged args f = false →
  ∃ f',
    FlowChart.pass strict layout args f = Ok f'
    ∧ FlowChart.edges f' = FlowChart.edges f
    ∧ FlowChart.layoutedData f' = FlowChart.layoutedData f
    ∧ FlowChart.layoutRuns f' = FlowChart.layoutRuns f
    ∧ elems (FlowChart.nodes f')
      = (if FlowChart.borderDepsChanged args f
         then borderEffect (FlowChartArgs.borderNodeId args)
                (Styles.primaryColor (useFlowChartStyles (FlowChartArgs.theme args)))
                (elems (FlowChart.nodes f))
         else elems (FlowChart.nodes f))
    ∧ (FlowChart.borderDepsChanged args f = false →
       FlowChart.nodes f' = FlowChart.nodes f).
Proof.
  intros Hs Hch. apply hooksAgree_session in Hs.
  destruct (renderLayout_cached strict layout args f Hs Hch) as [_ Hrl].
  unfold FlowChart.pass. rewrite Hrl. eexists. split; [reflexivity |].
  rewrite (commit_nodes_rerender args f _ _ Hch).
  split; [unfold FlowChart.commit; simpl; by rewrite Hch |].
  split; [done |]. split; [done |].
  rewrite borderEffect_fires. split.
  - destruct (FlowChart.borderDepsChanged args f); simpl; [| done].
    by destruct (borderEffectFires _ _ _).
  - by intros ->.
Qed.

Lemma render_same_props_witness :
  ∃ f',
    FlowChart.pass false stackLayout sampleBorderArgs sampleFiber = Ok f'
    ∧ FlowChart.edges f' = FlowChart.edges sampleFiber
    ∧ FlowChart.layoutRuns f' = FlowChart.layoutRuns sampleFiber
    ∧ elems (FlowChart.nodes f') = addBorderToNode "#007bff" "n1" sampleNodes.
Proof.
  destruct (render_same_props false stackLayout noArgs [sampleArgs; sampleArgs]
              sampleFiber sampleBorderArgs)
    as (f' & Hp & He & _ & Hr & Hn & _).
  - vm_compute. reflexivity.
  - reflexivity.
  - exists f'. split; [exact Hp |]. split; [exact He |]. split; [exact Hr |].
    rewrite Hn. vm_compute. reflexivity.
Defined.

(** * More on the deferred fit-view call *)

Module FitViewMore.
Import FitView FitViewFacts.

Lemma pending_bound_step e s :
  Inv s → (length (pending s) ≤ 1)%nat → (length (pending (step e s)) ≤ 1)%nat.
Proof.
  intros HI Hlen. destruct e; simpl.
  - destruct (mounted s) eqn:Hm; [done |]. simpl.
    destruct (pending s) as [|t l] eqn:Hp; [simpl; lia |].
    destruct (proj1 HI t) as (_ & _ & Hm' & _); [rewrite Hp; left | congruence].
  - destruct (mounted s); [| done]. simpl.
    rewrite (runCleanup_pending s HI). simpl. lia.
  - destruct (mounted s); [| done]. simpl.
    rewrite (runCleanup_pending s HI). simpl. lia.
  - case_bool_decide; [| done]. simpl.
    etrans; [apply length_filter | done].
Qed.

Lemma calls_NoDup_step e s :
  Inv s → NoDup (fitViewCalls s).*1 → NoDup (fitViewCalls (step e s)).*1.
Proof.
  intros HI Hnd. destruct e; simpl.
  - by destruct (mounted s).
  - destruct (mounted s); [| done]. simpl.
    by rewrite (proj2 (proj2 (runCleanup_rest s))).
  - destruct (mounted s); [| done]. simpl.
    by rewrite (proj2 (proj2 (runCleanup_rest s))).
  - case_bool_decide as Ht; [| done]. simpl. rewrite fmap_app. simpl.
    destruct (proj1 HI t Ht) as (_ & _ & _ & Hnc).
    apply NoDup_app. split; [done |]. split; [| apply NoDup_singleton].
    intros x Hx Hx'. by apply list_elem_of_singleton in Hx' as ->.
Qed.

Lemma reachable_facts evs s :
  Inv s → (length (pending s) ≤ 1)%nat → NoDup (fitViewCalls s).*1 →
  Inv (run evs s)
  ∧ (length (pending (run evs s)) ≤ 1)%nat
  ∧ NoDup (fitViewCalls (run evs s)).*1.
Proof.
  revert s. induction evs as [|e evs IH]; intros s HI Hlen Hnd; simpl; [done |].
  apply IH; [by apply Inv_step | by apply pending_bound_step | by apply calls_NoDup_step].
Qed.

End FitViewMore.

(** X15: however the component is mounted, re-rendered and unmounted and
    whenever timers fire, at most one fit-view timer is pending, it is the
    one the live cleanup holds, and none is pending while the component is
    unmounted. *)
Theorem fitView_single_pending_timer evs :
  let s := FitView.run evs FitView.init in
  (length (FitView.pending s) ≤ 1)%nat
  ∧ (∀ t, t ∈ FitView.pending s → FitView.cleanup s = Some t)
  ∧ (FitView.mounted s = false → FitView.pending s = []).
Proof.
  intros s.
  destruct (FitViewMore.reachable_facts evs FitView.init) as (HI & Hlen & _);
    [apply FitViewFacts.Inv_init | simpl; lia | apply NoDup_nil_2 |].
  fold s in HI, Hlen. split; [done |]. split.
  - intros t Ht. by destruct (proj1 HI t Ht) as (_ & Hc & _).
  - intros Hm. destruct (FitView.pending s) as [|t l] eqn:Hp; [done |].
    destruct (proj1 HI t) as (_ & _ & Hm' & _); [rewrite Hp; left | congruence].
Qed.

Lemma fitView_single_pending_timer_witness :
  FitView.pending
    (FitView.run [FitView.Mount; FitView.FitViewChanged; FitView.Fire 0]
       FitView.init) = [1%nat]
  ∧ FitView.cleanup
      (FitView.run [FitView.Mount; FitView.FitViewChanged; FitView.Fire 0]
         FitView.init) = Some 1%nat.
Proof.
  split; [reflexivity |].
  apply (fitView_single_pending_timer
           [FitView.Mount; FitView.FitViewChanged; FitView.Fire 0]).
  left.
Defined.

(** X16: no timer calls [fitView] twice: along any run, the timers
    recorded as having called are pairwise distinct. *)
Theorem fitView_called_once_per_timer evs :
  NoDup (FitView.fitViewCalls (FitView.run evs FitView.init)).*1.
Proof.
  destruct (FitViewMore.reachable_facts evs FitView.init) as (_ & _ & Hnd);
    [apply FitViewFacts.Inv_init | simpl; lia | apply NoDup_nil_2 | done].
Qed.

(** * Highlighting and layout together *)

Lemma placeNode_highlighted g p X node node' :
  placeNode g node = Ok node' →
  placeNode g
    (MeasuredNode.with_style node
       (<["border" := if decide (MeasuredNode.id node = X)
                      then JStr (highlightBorder p) else JUndefined]>
          (default ∅ (MeasuredNode.style node))))
  = Ok (MeasuredNode.with_style node'
          (<["border" := if decide (MeasuredNode.id node' = X)
                         then JStr (highlightBorder p) else JUndefined]>
             (default ∅ (MeasuredNode.style node')))).
Proof.
  unfold placeNode. simpl.
  destruct (Dagre.node g (MeasuredNode.id node)) as [c|]; [| done].
  by intros [= <-].
Qed.

Lemma addBorderToNode_layoutKey p X nodes :
  map layoutKey (addBorderToNode p X nodes) = map layoutKey nodes.
Proof.
  unfold addBorderToNode. induction nodes as [|n ns IH]; simpl; [done |].
  by f_equal.
Qed.

(** X17: highlighting does not reach the layout and the layout does not
    touch the highlight: laying out the highlighted nodes gives the
    highlighted version of the layouted nodes. *)
Theorem getLayoutedElements_commutes_with_highlight
    (layout : Dagre.Graph → option Dagre.Graph) p X nodes edges options r :
  getLayoutedElements layout nodes edges options = Ok r →
  getLayoutedElements layout (addBorderToNode p X nodes) edges options
  = Ok (Layouted.mk (addBorderToNode p X (Layouted.nodes r)) edges).
Proof.
  unfold getLayoutedElements.
  destruct (layout (buildGraph nodes edges options)) as [g|] eqn:Hl; [| done].
  destruct (map_result (placeNode g) nodes) as [out|] eqn:Hout; [| done].
  intros [= <-]. simpl. apply map_result_inv in Hout.
  rewrite !buildGraph_via_keys, addBorderToNode_layoutKey, <- !buildGraph_via_keys, Hl.
  rewrite (map_result_of_Forall2 (placeNode g) _ (addBorderToNode p X out)); [done |].
  unfold addBorderToNode. apply Forall2_fmap.
  eapply Forall2_impl; [exact Hout |]. intros node node' Hp. simpl.
  by apply placeNode_highlighted.
Qed.

Lemma getLayoutedElements_commutes_with_highlight_witness :
  getLayoutedElements stackLayout (addBorderToNode "#007bff" "n1" sampleNodes)
    sampleEdges tbOptions
  = Ok (Layouted.mk
          (addBorderToNode "#007bff" "n1"
             (zip_with MeasuredNode.with_position sampleNodes
                [XYPosition.mk 0 0; XYPosition.mk 0 90]))
          sampleEdges).
Proof.
  apply (getLayoutedElements_commutes_with_highlight stackLayout "#007bff" "n1"
           sampleNodes sampleEdges tbOptions
           (Layouted.mk (zip_with MeasuredNode.with_position sampleNodes
                           [XYPosition.mk 0 0; XYPosition.mk 0 90]) sampleEdges)).
  vm_compute. reflexivity.
Defined.
